(** * aiops-deploy: the outlier-detection worker ([workers.py])

    A shallow embedding of [workers.py] and the properties of its
    retry executor ([_retryable]), its parameter tuner
    ([isolation_forest_params]) and its job worker ([ai_service_worker]).

    Python values are modelled by the JSON-shaped type [value]; Python
    floats are the IEEE 754 binary64 numbers of the kernel ([float]);
    Python integers are unbounded ([Z]); dictionaries are finite maps
    ([gmap string value]).  Code that raises returns [Raise e]; code with
    observable effects (logging, metrics, calls into the [rad] library,
    HTTP requests) runs in the trace monad [M].

    The libraries [rad] and [requests] are parameters of the model: a
    call into [rad] returns or raises as the library decides, and the
    network decides the fate of every request.  Left out: the thread the
    worker runs on (the model is the run of one worker), the lookup of
    the HTTP verb on the session (the model is of a method that names
    one, [is_http_verb], as the worker's "post" does), and the
    serialization of the payload. *)

From Stdlib Require Import ZArith Lia Floats Bool String List.
From stdpp Require Import base option list gmap strings pretty.
Import ListNotations.

#[local] Set Warnings "-inexact-float,-register-all".
#[local] Open Scope string_scope.
#[local] Open Scope list_scope.
#[local] Open Scope Z_scope.

(** ** Python values and exceptions *)

Inductive value : Type :=
| VNone
| VBool (b : bool)
| VInt (z : Z)
| VFloat (f : float)
| VStr (s : string)
| VList (l : list value)
| VDict (d : gmap string value).

Inductive exn : Type :=
| KeyError (key : string)
| TypeError
| ValueError
| OverflowError
| HTTPError (msg : string)
| ConnectionError (msg : string)
| OtherError (name : string).

Inductive result (A : Type) : Type :=
| OK (a : A)
| Raise (e : exn).
Arguments OK {A} a.
Arguments Raise {A} e.

#[export] Instance result_ret : MRet result := fun A a => OK a.
#[export] Instance result_bind : MBind result := fun A B f m =>
  match m with
  | OK a => f a
  | Raise e => Raise e
  end.

(** [d[key]] on a value: only a dict can be subscripted by a string. *)
Definition getitem (d : value) (key : string) : result value :=
  match d with
  | VDict m =>
      match m !! key with
      | Some v => OK v
      | None => Raise (KeyError key)
      end
  | _ => Raise TypeError
  end.

(** [d[key]] on a dict. *)
Definition subscript (d : gmap string value) (key : string) : result value :=
  getitem (VDict d) key.

(** [d[outer][inner]] on a nested dict. *)
Definition nested_field (output : value) (outer inner : string) : result value :=
  d ← getitem output outer; getitem d inner.

(** ** The numeric tower: [int] (with [bool]) and [float] *)

Inductive num : Type :=
| NInt (z : Z)
| NFloat (f : float).

Definition as_num (v : value) : result num :=
  match v with
  | VBool b => OK (NInt (Z.b2z b))
  | VInt z => OK (NInt z)
  | VFloat f => OK (NFloat f)
  | _ => Raise TypeError
  end.

(** [float(z)] for an int [z]: rounded to the nearest binary64 number,
    ties to even; [OverflowError] when the rounded value is not finite. *)
Definition float_of_int (z : Z) : result float :=
  match binary_normalize prec emax z 0 false with
  | S754_infinity _ => Raise OverflowError
  | sf => OK (SF2Prim sf)
  end.

(** The integer part of a finite float, truncated toward zero. *)
Definition sf_trunc (sf : spec_float) : option Z :=
  match sf with
  | S754_zero _ => Some 0
  | S754_finite s m e => Some (cond_Zopp s (Z.shiftl (Zpos m) e))
  | S754_infinity _ | S754_nan => None
  end.

(** [int(x)]: an int is itself; a float is truncated; a NaN raises
    [ValueError] and an infinity [OverflowError]. *)
Definition py_int (x : num) : result Z :=
  match x with
  | NInt z => OK z
  | NFloat f =>
      match Prim2SF f with
      | S754_nan => Raise ValueError
      | S754_infinity _ => Raise OverflowError
      | sf => match sf_trunc sf with
              | Some z => OK z
              | None => Raise ValueError
              end
      end
  end.

(** The exact comparison of a float with an int (Python does not round
    the int); [None] for a NaN. *)
Definition sf_compare_Z (sf : spec_float) (n : Z) : option comparison :=
  match sf with
  | S754_nan => None
  | S754_infinity s => Some (if s then Lt else Gt)
  | S754_zero _ => Some (0 ?= n)
  | S754_finite s m e =>
      let v := cond_Zopp s (Zpos m) in
      Some (if 0 <=? e then v * 2 ^ e ?= n else v ?= n * 2 ^ (- e))
  end.

Definition num_lt (x y : num) : bool :=
  match x, y with
  | NInt a, NInt b => a <? b
  | NFloat a, NFloat b => PrimFloat.ltb a b
  | NFloat a, NInt b =>
      match sf_compare_Z (Prim2SF a) b with Some Lt => true | _ => false end
  | NInt a, NFloat b =>
      match sf_compare_Z (Prim2SF b) a with Some Gt => true | _ => false end
  end.

(** [x == 0]. *)
Definition num_is_zero (x : num) : bool :=
  match x with
  | NInt a => a =? 0
  | NFloat a => PrimFloat.eqb a 0%float
  end.

(** [x * y] on numbers; an int operand of a float product is converted
    first. *)
Definition num_mul (x y : num) : result num :=
  match x, y with
  | NInt a, NInt b => OK (NInt (a * b))
  | NFloat a, NFloat b => OK (NFloat (a * b)%float)
  | NInt a, NFloat b => a' ← float_of_int a; OK (NFloat (a' * b)%float)
  | NFloat a, NInt b => b' ← float_of_int b; OK (NFloat (a * b')%float)
  end.

(** [a < b] where one side is a number: ordering a number against
    anything that is not a number is a [TypeError]. *)
Definition py_lt (a b : value) : result bool :=
  x ← as_num a; y ← as_num b; OK (num_lt x y).

(** [a * b] on numbers.  Repetition of a sequence by an int is left out:
    every product of this program has a float on its right. *)
Definition py_mul (a b : value) : result num :=
  x ← as_num a; y ← as_num b; num_mul x y.

(** [v == 0]: true of the numbers equal to zero only. *)
Definition py_eq_zero (v : value) : bool :=
  match as_num v with
  | OK x => num_is_zero x
  | Raise _ => false
  end.

(** ** Module constants *)

Definition MAX_RETRIES : nat := 3.

(** ** [isolation_forest_params] *)

(** The chained comparison [0.001 < factor < 1.0]. *)
Definition strictly_inside (factor : value) : result bool :=
  lo ← py_lt (VFloat 0.001) factor;
  if lo : bool then py_lt factor (VFloat 1.0) else OK false.

Definition isolation_forest_params
    (trees_factor sample_factor data_rows : value) : result (Z * Z) :=
  c1 ← strictly_inside trees_factor;
  num_trees ← (if c1 : bool
               then py_mul data_rows trees_factor
               else py_mul data_rows (VFloat 0.2));
  c2 ← strictly_inside sample_factor;
  sample_size ← (if c2 : bool
                 then py_mul data_rows sample_factor
                 else py_mul data_rows (VFloat 0.2));
  n ← py_int num_trees;
  s ← py_int sample_size;
  OK (n, s).

(** ** Observable effects: the trace monad *)

Inductive level : Type := DEBUG | INFO | WARNING | ERROR.

(** What a run of the worker does to the outside world, in order: log
    records, metric updates ([METRICS[name]]), calls (into [rad], and of
    the tuner), and HTTP requests. *)
Inductive event : Type :=
| Log (lvl : level) (fmt : string) (args : list value)
| Observe (metric : string) (v : value)
| Inc (metric : string)
| TimerStart (metric : string)
| TimerStop (metric : string)
| Call (callee : string) (args : list value)
| Request (attempt : nat) (method url : string) (json headers : value).

Record M (A : Type) : Type := Run { trace : list event; outcome : result A }.
Arguments Run {A} trace outcome.
Arguments trace {A} m.
Arguments outcome {A} m.

#[export] Instance M_ret : MRet M := fun A a => Run [] (OK a).
#[export] Instance M_bind : MBind M := fun A B f m =>
  match outcome m with
  | OK a => Run (trace m ++ trace (f a)) (outcome (f a))
  | Raise e => Run (trace m) (Raise e)
  end.

Definition emit (e : event) : M unit := Run [e] (OK tt).
Definition lift {A} (r : result A) : M A := Run [] r.
Definition raise {A} (e : exn) : M A := Run [] (Raise e).
Definition log (lvl : level) (fmt : string) (args : list value) : M unit :=
  emit (Log lvl fmt args).

(** [try: body except <caught>: handler]. *)
Definition try_except {A} (body : M A) (caught : exn -> bool)
    (handler : exn -> M A) : M A :=
  match outcome body with
  | OK a => body
  | Raise e =>
      if caught e
      then Run (trace body ++ trace (handler e)) (outcome (handler e))
      else body
  end.

(** Modelled from the spec: the table [METRICS] of the module
    [prometheus_metrics] is missing; the specification describes it as a
    sink that accepts timers, counters and histograms.  An update of the
    metric [METRICS[metric]] is recorded in the trace and does not fail.

    [with METRICS[metric].time(): body], also the decorator
    [@METRICS[metric].time()]: the duration is observed when the body is
    left, by a return or by an exception. *)
Definition timed {A} (metric : string) (body : M A) : M A :=
  Run (TimerStart metric :: trace body ++ [TimerStop metric]) (outcome body).

(** Modelled from the spec: [METRICS[metric].observe(v)], on the missing
    table [METRICS]; a histogram of the sink. *)
Definition observe (metric : string) (v : value) : M unit :=
  emit (Observe metric v).

(** Modelled from the spec: [METRICS[metric].inc()], on the missing
    table [METRICS]; a counter of the sink. *)
Definition inc (metric : string) : M unit :=
  emit (Inc metric).

(** The one-character string holding a double quote. *)
Definition dquote : string := String (Ascii.ascii_of_nat 34) EmptyString.

(** The computation [m] after the events [t]. *)
Definition prefix {A} (t : list event) (m : M A) : M A :=
  Run (t ++ trace m) (outcome m).

(** [str(error)]. *)
Definition exn_str (e : exn) : string :=
  match e with
  | KeyError k => k
  | HTTPError msg | ConnectionError msg => msg
  | OtherError name => name
  | TypeError | ValueError | OverflowError => EmptyString
  end.

(** ** HTTP: what [requests] gives back *)

(** A response: its status, its reason phrase and the URL it answers. *)
Record response : Type :=
  Response { status_code : Z; reason : string; response_url : string }.

(** The fate of one request: a response, or an exception raised by the
    session. *)
Inductive reply : Type :=
| Responds (r : response)
| Fails (e : exn).

(** A client or server error status. *)
Definition is_error_status (r : response) : bool :=
  (400 <=? status_code r) && (status_code r <? 600).

(** The message [raise_for_status] composes: empty unless the status is
    a client error (4xx) or a server error (5xx). *)
Definition http_error_msg (r : response) : string :=
  if (400 <=? status_code r) && (status_code r <? 500)
  then pretty (status_code r) +:+ " Client Error: " +:+ reason r
       +:+ " for url: " +:+ response_url r
  else if (500 <=? status_code r) && (status_code r <? 600)
  then pretty (status_code r) +:+ " Server Error: " +:+ reason r
       +:+ " for url: " +:+ response_url r
  else EmptyString.

(** [resp.raise_for_status()]: an [HTTPError] that carries the message,
    when there is one. *)
Definition raise_for_status (r : response) : result unit :=
  match http_error_msg r with
  | EmptyString => OK tt
  | msg => Raise (HTTPError msg)
  end.

(** The methods of a [requests.Session] that send a request to the URL
    they are given: what [getattr(session, method)] must find for the
    call of line 37 to reach the network. *)
Definition is_http_verb (method : string) : bool :=
  bool_decide (method ∈ ["get"; "options"; "head"; "post"; "put"; "patch";
                         "delete"]).

(** [except (requests.HTTPError, requests.ConnectionError)]. *)
Definition is_request_failure (e : exn) : bool :=
  match e with
  | HTTPError _ | ConnectionError _ => true
  | _ => false
  end.

(** [except requests.HTTPError]. *)
Definition is_HTTPError (e : exn) : bool :=
  match e with
  | HTTPError _ => true
  | _ => false
  end.

(** [except KeyError]. *)
Definition is_KeyError (e : exn) : bool :=
  match e with
  | KeyError _ => true
  | _ => false
  end.

Section Worker.

(** *** The process and its surroundings *)

(** The element type of [rad]'s data frames and of its forests. *)
Context {frame forest : Type}.

(** [current_thread().name] and the identifier [uuid.uuid1()] mints. *)
Variable thread_name : string.
Variable uuid1 : string.

(** Module-level configuration, read from the process environment. *)
Variable FEATURE_LIST : list value.
Variable RAD_STRATEGY : string.

(** The [rad] library. *)
Variable inventory_data_to_pandas : value -> list value -> result frame.
Variable preprocess : frame -> result (frame * value).
Variable IsolationForest : frame -> Z -> Z -> result forest.
Variable predict : forest -> frame -> value -> result (list value).
Variable RADIsolationForest : Z -> Z -> result forest.
Variable fit_predict_contrast : forest -> frame -> frame -> result (list value).

(** The network: the fate of the request of each attempt. *)
Variable send : nat -> reply.

(** *** [_retryable] *)

(** The body of [for attempt in range(MAX_RETRIES)], over the attempts
    still to run, followed by the [raise] after the loop.
    [getattr(session, method)] is taken to find a verb of the session
    ([is_http_verb]), as it does for the "post" of the worker: the call
    is recorded as a request and the network decides its fate. *)
Fixpoint retry_loop (method url : string) (json headers : value)
    (range : list nat) : M response :=
  match range with
  | [] => raise (HTTPError "All attempts failed")
  | attempt :: range' =>
      try_except
        (emit (Request attempt method url json headers);;
         resp ← lift (match send attempt with
                      | Responds r => OK r
                      | Fails e => Raise e
                      end);
         lift (raise_for_status resp);;
         mret (Some resp))
        is_request_failure
        (fun error =>
           log WARNING "%s: Request failed (attempt #%d), retrying: %s"
             [VStr thread_name; VInt (Z.of_nat attempt); VStr (exn_str error)];;
           mret None)
      ≫= fun r =>
           match r with
           | Some resp => mret resp
           | None => retry_loop method url json headers range'
           end
  end.

Definition _retryable (method url : string) (json headers : value)
    : M response :=
  retry_loop method url json headers (seq 0 MAX_RETRIES).

(** *** [rad_original] and [scikitlearn] *)

Definition rad_original (data_frame : frame) (num_of_tress sample_size : Z)
    (min_score : value) : M (forest * list value) :=
  timed "processing_time"
    (emit (Call "rad.IsolationForest" [VInt num_of_tress; VInt sample_size]);;
     isolation_forest ← lift (IsolationForest data_frame num_of_tress sample_size);
     emit (Call "predict" [min_score]);;
     results ← lift (predict isolation_forest data_frame min_score);
     mret (isolation_forest, results)).

Definition scikitlearn (data_frame : frame) (num_of_tress sample_size : Z)
    : M (forest * list value) :=
  timed "processing_time"
    (emit (Call "rad.RADIsolationForest"
             [VInt num_of_tress; VInt sample_size; VFloat 0.1; VStr "new"]);;
     isolation_forest ← lift (RADIsolationForest num_of_tress sample_size);
     emit (Call "fit_predict_contrast" []);;
     results ← lift (fit_predict_contrast isolation_forest data_frame data_frame);
     mret (isolation_forest, results)).

(** *** [ai_service_worker] *)

(** Lines 158-170: the strategy branch. *)
Definition run_strategy (env : gmap string value) (data_frame : frame)
    (num_trees sample_size : Z) : M (forest * list value) :=
  if String.eqb RAD_STRATEGY "scikitlearn"
  then scikitlearn data_frame num_trees sample_size
  else
    min_score ← lift (subscript env "min_score");
    rad_original data_frame num_trees sample_size min_score.

(** Lines 180-191: the response JSON. *)
Definition build_output (batch_id : string) (ai_service account_id : value)
    (results : list value) (reports : list value) : value :=
  VDict (list_to_map
    [("id", VStr batch_id);
     ("ai_service", ai_service);
     ("data", VDict (list_to_map
        [("account_number", account_id);
         ("results", VList results);
         ("feature_list", VList FEATURE_LIST);
         ("common_data", VDict (list_to_map [("charts", VList reports)]))]))]).

(** Lines 127-139: the validation block.  [None] stands for its two
    [return]s. *)
Definition validate (job : gmap string value)
    : M (option (value * value * value)) :=
  try_except
    (account_id ← lift (subscript job "account");
     batch_data ← lift (subscript job "data");
     rows ← lift (getitem batch_data "total");
     observe "data_size" rows;;
     if py_eq_zero rows
     then
       log INFO "%s: Job account ID %s: no system in data. Aborting..."
         [VStr thread_name; account_id];;
       mret None
     else mret (Some (account_id, batch_data, rows)))
    is_KeyError
    (fun _ =>
       log ERROR "%s: Invalid Job data, terminated." [VStr thread_name];;
       mret None).

(** Lines 198-212: the delivery of the output and the end of the job. *)
Definition deliver (next_service : string) (b64_identity : value)
  (batch_id : string) (output : value) : M unit :=
  try_except
    (_retryable "post" next_service output
       (VDict {[ "x-rh-identity" := b64_identity ]});;
     mret tt)
    is_HTTPError
    (fun exception =>
       log ERROR ("%s: Failed to pass data for " +:+ dquote +:+ "%s" +:+ dquote +:+ ": %s")
         [VStr thread_name; VStr batch_id; VStr (exn_str exception)]);;
  inc "jobs_published";;
  log DEBUG "%s: Done, exiting" [VStr thread_name].

(** Lines 141-212: what the worker does with a validated job. *)
Definition process (next_service : string) (env : gmap string value)
    (b64_identity : value) (account_id batch_data rows : value) : M unit :=
  let batch_id := uuid1 in
  log INFO "%s: Job account ID %s (batch ID: %s): Started..."
    [VStr thread_name; account_id; VStr batch_id];;
  trees_factor ← lift (subscript env "num_trees_factor");
  sample_factor ← lift (subscript env "sample_size_factor");
  emit (Call "isolation_forest_params" [trees_factor; sample_factor; rows]);;
  '(num_trees, sample_size) ←
    lift (isolation_forest_params trees_factor sample_factor rows);
  data_frame ← timed "preparation_time"
    (emit (Call "rad.inventory_data_to_pandas" (batch_data :: FEATURE_LIST));;
     data_frame ← lift (inventory_data_to_pandas batch_data FEATURE_LIST);
     emit (Call "rad.preprocess" []);;
     '(data_frame, _mapping) ← lift (preprocess data_frame);
     mret data_frame);
  '(isolation_forest, results) ←
    run_strategy env data_frame num_trees sample_size;
  let reports : list value := [] in
  log INFO "Analysis have %s rows in scores"
    [VInt (Z.of_nat (length results))];;
  ai_service ← lift (subscript env "ai_service");
  let output := build_output batch_id ai_service account_id results reports in
  log INFO "%s: Job ID %s: detection done, publishing to %s ..."
    [VStr thread_name; VStr batch_id; VStr next_service];;
  deliver next_service b64_identity batch_id output.

(** The thread target [worker], decorated with [@REQUEST_TIME.time()]. *)
Definition worker (job : gmap string value) (next_service : string)
    (env : gmap string value) (b64_identity : value) : M unit :=
  timed "request_time"
    (log DEBUG "%s: Worker started" [VStr thread_name];;
     validated ← validate job;
     match validated with
     | None => mret tt
     | Some (account_id, batch_data, rows) =>
         process next_service env b64_identity account_id batch_data rows
     end).

(** [ai_service_worker] starts [worker] on a thread of its own and
    returns the thread; its model is the run of that thread. *)
Definition ai_service_worker (job : gmap string value) (next_service : string)
    (env : gmap string value) (b64_identity : value) : M unit :=
  worker job next_service env b64_identity.

End Worker.

(** ** Reading a trace *)

Definition is_request (e : event) : bool :=
  match e with
  | Request _ _ _ _ _ => true
  | _ => false
  end.

(** The number of HTTP requests sent: the attempts of the retry loop. *)
Definition requests_made (t : list event) : nat :=
  length (List.filter is_request t).

(** An attempt that fails the way the specification counts it: a
    response with an error status, or a connection failure. *)
Definition attempt_fails (r : reply) : bool :=
  match r with
  | Responds resp => is_error_status resp
  | Fails (ConnectionError _) => true
  | Fails _ => false
  end.

Definition is_call (e : event) : bool :=
  match e with
  | Call _ _ => true
  | _ => false
  end.

(** The calls made: of the tuner and into [rad]. *)
Definition calls_made (t : list event) : list event :=
  List.filter is_call t.

(** A metric update other than the request timer that wraps the worker
    from its entry. *)
Definition is_metric_beyond_entry (e : event) : bool :=
  match e with
  | Observe _ _ | Inc _ => true
  | TimerStart metric | TimerStop metric => negb (String.eqb metric "request_time")
  | _ => false
  end.

Definition metrics_beyond_entry (t : list event) : list event :=
  List.filter is_metric_beyond_entry t.

Definition is_inc (metric : string) (e : event) : bool :=
  match e with
  | Inc metric' => String.eqb metric' metric
  | _ => false
  end.

(** How many times the counter [metric] was incremented. *)
Definition incremented (metric : string) (t : list event) : nat :=
  length (List.filter (is_inc metric) t).

(** The jobs-published counter is incremented once, and no request
    follows the increment. *)
Definition published_once (t : list event) : Prop :=
  incremented "jobs_published" t = 1%nat /\
  exists t1 t2, t = t1 ++ Inc "jobs_published" :: t2 /\ requests_made t2 = 0%nat.

(** An error record that carries the value [v]. *)
Definition logs_error_with (v : value) (t : list event) : Prop :=
  exists fmt args, In (Log ERROR fmt args) t /\ In v args.

(** What the worker owes once it has sent a request: it returns, it has
    counted the job as published once, after its last request, and when
    every attempt failed it has logged an error that names the batch. *)
Definition delivery_contract (batch_id : string) (send : nat -> reply)
    (w : M unit) : Prop :=
  (0 < requests_made (trace w))%nat ->
  outcome w = OK tt /\
  published_once (trace w) /\
  ((forall n, (n < MAX_RETRIES)%nat -> attempt_fails (send n) = true) ->
   logs_error_with (VStr batch_id) (trace w)).



(** A job in which a required key is absent: [account], [data], or
    [total] in the dict [data]. *)
Definition lacks_required_key (job : gmap string value) : Prop :=
  job !! "account" = None \/
  job !! "data" = None \/
  exists d, job !! "data" = Some (VDict d) /\ d !! "total" = None.

(** *** The stages of a job *)

Inductive stage : Type :=
| Validate | Prepare | Tune | Detect | Package | Deliver | Complete.

(** The stage an event belongs to.  Log records belong to none, except
    the result count logged while packaging. *)
Definition stage_of (e : event) : option stage :=
  match e with
  | Observe _ _ => Some Validate
  | Call callee _ =>
      if String.eqb callee "isolation_forest_params" then Some Tune
      else if String.eqb callee "rad.inventory_data_to_pandas" then Some Prepare
      else if String.eqb callee "rad.preprocess" then Some Prepare
      else Some Detect
  | TimerStart metric | TimerStop metric =>
      if String.eqb metric "preparation_time" then Some Prepare
      else if String.eqb metric "processing_time" then Some Detect
      else None
  | Log _ fmt _ =>
      if String.eqb fmt "Analysis have %s rows in scores" then Some Package
      else None
  | Request _ _ _ _ _ => Some Deliver
  | Inc _ => Some Complete
  end.

Definition stages (t : list event) : list stage :=
  omap stage_of t.

(** The order of the stages in the code. *)
Definition code_rank (s : stage) : nat :=
  match s with
  | Validate => 0 | Tune => 1 | Prepare => 2 | Detect => 3
  | Package => 4 | Deliver => 5 | Complete => 6
  end.

(** The order of the stages as the specification lists them. *)
Definition spec_rank (s : stage) : nat :=
  match s with
  | Validate => 0 | Prepare => 1 | Tune => 2 | Detect => 3
  | Package => 4 | Deliver => 5 | Complete => 6
  end.

Fixpoint nondecreasing (l : list nat) : bool :=
  match l with
  | a :: (b :: _) as l' => (a <=? b)%nat && nondecreasing l'
  | _ => true
  end.

(** The stages of a trace follow one another in the order [rank]: no
    event of an earlier stage comes after an event of a later one. *)
Definition in_order (rank : stage -> nat) (t : list event) : bool :=
  nondecreasing (map rank (stages t)).

(** The stages of [t] are in the order of the code and lie between the
    ranks [lo] and [hi]. *)
Definition within (lo hi : nat) (t : list event) : Prop :=
  in_order code_rank t = true /\
  forall s, In s (stages t) -> (lo <= code_rank s <= hi)%nat.

Definition staged {A} (lo hi : nat) (m : M A) : Prop :=
  within lo hi (trace m).

(** ** A concrete process, for the examples *)

Definition demo_FEATURE_LIST : list value := [VStr "cpu"; VStr "memory"].

(** A downstream service that accepts every request. *)
Definition demo_send_ok (attempt : nat) : reply :=
  Responds (Response 200 "OK" "http://next").

(** A downstream service that answers every request with HTTP 500. *)
Definition demo_send_500 (attempt : nat) : reply :=
  Responds (Response 500 "Internal Server Error" "http://next").

(** A [rad] library that succeeds on every input; its frames and
    forests carry no data. *)
Definition demo_inventory_data_to_pandas (batch_data : value)
    (features : list value) : result unit := OK tt.
Definition demo_preprocess (data_frame : unit) : result (unit * value) :=
  OK (data_frame, VDict ∅).
Definition demo_IsolationForest (data_frame : unit) (n sz : Z) : result unit :=
  OK tt.
Definition demo_predict (isolation_forest data_frame : unit) (min_score : value)
    : result (list value) := OK [VBool false; VBool true].
Definition demo_RADIsolationForest (n sz : Z) : result unit := OK tt.
Definition demo_fit_predict_contrast (isolation_forest data_frame training : unit)
    : result (list value) := OK [VInt 1; VInt (-1)].

Definition demo_worker (RAD_STRATEGY : string) (send : nat -> reply)
    : gmap string value -> string -> gmap string value -> value -> M unit :=
  ai_service_worker "Thread-1" "b0a1" demo_FEATURE_LIST RAD_STRATEGY
    demo_inventory_data_to_pandas demo_preprocess
    demo_IsolationForest demo_predict
    demo_RADIsolationForest demo_fit_predict_contrast
    send.

Definition demo_job : gmap string value :=
  list_to_map
    [("account", VStr "A1");
     ("data", VDict (list_to_map [("total", VInt 100); ("hosts", VList [])]))].

Definition demo_job_no_account : gmap string value :=
  list_to_map [("data", VDict (list_to_map [("total", VInt 100)]))].

Definition demo_job_empty : gmap string value :=
  list_to_map [("account", VStr "A1"); ("data", VDict (list_to_map [("total", VInt 0)]))].

Definition demo_env : gmap string value :=
  list_to_map
    [("num_trees_factor", VFloat 0.3);
     ("sample_size_factor", VFloat 0.3);
     ("min_score", VFloat 0.5);
     ("ai_service", VStr "aiops")].

(** ** The tuner as the specification words it *)

(** A factor lies strictly inside the open interval (0.001, 1.0). *)
Definition in_open_interval (f : float) : bool :=
  PrimFloat.ltb 0.001 f && PrimFloat.ltb f 1.

(** The Python expression [int(a * b)]. *)
Definition int_of_product (a b : value) : result Z :=
  p ← py_mul a b; py_int p.

(** One component of the tuned pair: [int(r * f)] for a factor strictly
    inside the interval, [int(0.2 * r)] for any other. *)
Definition spec_component (r : Z) (f : float) : result Z :=
  if in_open_interval f
  then int_of_product (VInt r) (VFloat f)
  else int_of_product (VFloat 0.2) (VInt r).

(** ** Numbers of the binary64 format *)

(** A zero, an infinity or a canonical finite number, of sign [s]. *)
Definition well_formed (s : bool) (sf : spec_float) : Prop :=
  sf = S754_zero s \/ sf = S754_infinity s \/
  exists m e, sf = S754_finite s m e /\ bounded prec emax m e = true.

(** A zero or a canonical finite number, neither of them negative. *)
Definition finite_nonneg (sf : spec_float) : Prop :=
  sf = S754_zero false \/
  exists m e, sf = S754_finite false m e /\ bounded prec emax m e = true.

(** ** Further readings of the retry loop and of a trace *)

(** The attempt is followed by another turn of the loop: its response
    has an error status, or the session raised what the loop catches. *)
Definition is_retried (r : reply) : bool :=
  match r with
  | Responds resp => is_error_status resp
  | Fails e => is_request_failure e
  end.

(** [str(error)] for the error of a retried attempt: the message of
    the [HTTPError] that [raise_for_status] raised, or the text of the
    exception of the session. *)
Definition failure_text (r : reply) : string :=
  match r with
  | Responds resp => http_error_msg resp
  | Fails e => exn_str e
  end.

(** What a retried attempt leaves in the trace: its request and the
    warning that names it. *)
Definition retry_round (thread_name : string) (send : nat -> reply)
    (method url : string) (json headers : value) (attempt : nat) : list event :=
  [Request attempt method url json headers;
   Log WARNING "%s: Request failed (attempt #%d), retrying: %s"
     [VStr thread_name; VInt (Z.of_nat attempt); VStr (failure_text (send attempt))]].

(** ** Further readings of a run of the worker *)




(** The counter of published jobs stands at one when the run returned
    after sending a request, and at zero otherwise. *)
Definition tallied (w : M unit) : Prop :=
  (incremented "jobs_published" (trace w) <= 1)%nat /\
  (incremented "jobs_published" (trace w) = 1%nat <->
   outcome w = OK tt /\ (0 < requests_made (trace w))%nat).

(** Every request of the trace is the request [method url json headers],
    numbered below [MAX_RETRIES]. *)
Definition requests_are (method url : string) (json headers : value)
    (t : list event) : Prop :=
  forall attempt method' url' json' headers',
    In (Request attempt method' url' json' headers') t ->
    (attempt < MAX_RETRIES)%nat /\
    method' = method /\ url' = url /\ json' = json /\ headers' = headers.

(** Some envelope built by the worker, under the batch id [batch_id],
    is the payload of every request of the run, a POST to the next
    service with the identity header. *)
Definition enveloped (FEATURE_LIST : list value) (batch_id next_service : string)
    (b64_identity : value) (w : M unit) : Prop :=
  exists ai_service account_id results,
    requests_are "post" next_service
      (build_output FEATURE_LIST batch_id ai_service account_id results [])
      (VDict {[ "x-rh-identity" := b64_identity ]})
      (trace w).

(** An environment without the tuner's factors, one without the service
    name, a job whose data is a list, and a session that times out. *)
Definition demo_env_no_factors : gmap string value :=
  list_to_map [("min_score", VFloat 0.5); ("ai_service", VStr "aiops")].

Definition demo_env_no_service : gmap string value :=
  list_to_map
    [("num_trees_factor", VFloat 0.3);
     ("sample_size_factor", VFloat 0.3);
     ("min_score", VFloat 0.5)].

Definition demo_job_list_data : gmap string value :=
  list_to_map [("account", VStr "A1"); ("data", VList [VInt 100])].

Definition demo_send_timeout (attempt : nat) : reply :=
  Fails (OtherError "ReadTimeout").

(** * Properties *)

(** ** Rounding in the binary64 format *)

Module IEEE.

Abbreviation fexp64 := (fexp prec emax).

Lemma fexp64_eq k : fexp64 k = Z.max (k - 53) (-1074).
Proof. reflexivity. Qed.

Lemma digits2_pos_size p : digits2_pos p = Pos.size p.
Proof. induction p; simpl; congruence. Qed.

Lemma digits_pos p : Zdigits2 (Zpos p) = Z.log2 (Zpos p) + 1.
Proof.
  simpl. rewrite digits2_pos_size.
  destruct p; simpl; lia.
Qed.

Lemma iter_pos_iter {A} (f : A -> A) p x : SpecFloat.iter_pos f p x = Pos.iter f x p.
Proof.
  revert x. induction p; intros x; simpl.
  - rewrite !IHp. rewrite <- !Pos.iter_swap. reflexivity.
  - rewrite !IHp. reflexivity.
  - reflexivity.
Qed.

Lemma shr_1_m r : 0 <= shr_m r -> shr_m (shr_1 r) = shr_m r / 2.
Proof.
  destruct r as [m rb sb]. simpl. intros Hm.
  destruct m as [|[p|p|]|p]; simpl shr_m; try lia.
  - reflexivity.
  - apply Z.div_unique with 1; lia.
  - apply Z.div_unique with 0; lia.
  - reflexivity.
Qed.

Lemma iter_shr_m p r :
  0 <= shr_m r -> shr_m (SpecFloat.iter_pos shr_1 p r) = shr_m r / 2 ^ Zpos p.
Proof.
  intros Hm. rewrite iter_pos_iter.
  induction p using Pos.peano_ind.
  - simpl. rewrite shr_1_m by assumption. reflexivity.
  - rewrite Pos.iter_succ, shr_1_m, IHp.
    + rewrite Pos2Z.inj_succ, Z.pow_succ_r by lia.
      rewrite Z.div_div by lia. f_equal. lia.
    + rewrite IHp. apply Z.div_pos; lia.
Qed.

Lemma shr_record_of_loc_m m l : shr_m (shr_record_of_loc m l) = m.
Proof. destruct l as [|[]]; reflexivity. Qed.

(** What [shr_fexp] does to a non-negative mantissa. *)
Lemma shr_fexp_spec m e l :
  0 <= m ->
  let n := fexp64 (Zdigits2 m + e) - e in
  let '(r, e') := shr_fexp prec emax m e l in
  (n <= 0 /\ shr_m r = m /\ e' = e) \/
  (0 < n /\ shr_m r = m / 2 ^ n /\ e' = e + n).
Proof.
  intros Hm n. unfold shr_fexp, shr. fold n.
  destruct n as [|p|p] eqn:Hn.
  - left. rewrite shr_record_of_loc_m. lia.
  - right. rewrite iter_shr_m; rewrite shr_record_of_loc_m; auto. lia.
  - left. rewrite shr_record_of_loc_m. lia.
Qed.

Lemma round_nearest_even_bounds m l :
  m <= round_nearest_even m l <= m + 1.
Proof.
  destruct l as [|[]]; simpl; try lia. destruct (Z.even m); lia.
Qed.

Lemma digits_pos' m : 0 < m -> Zdigits2 m = Z.log2 m + 1.
Proof. destruct m; try lia. intros _. apply digits_pos. Qed.

(** The two steps of [binary_round_aux]: shift to the target exponent,
    round, and shift again when rounding carried into a new digit. *)
Lemma binary_round_aux_steps s m e l :
  0 <= m ->
  exists m1 e1 m2 m3 e2,
    (let n := fexp64 (Zdigits2 m + e) - e in
     (n <= 0 /\ m1 = m /\ e1 = e) \/ (0 < n /\ m1 = m / 2 ^ n /\ e1 = e + n)) /\
    m1 <= m2 <= m1 + 1 /\
    (let n := fexp64 (Zdigits2 m2 + e1) - e1 in
     (n <= 0 /\ m3 = m2 /\ e2 = e1) \/ (0 < n /\ m3 = m2 / 2 ^ n /\ e2 = e1 + n)) /\
    0 <= m1 /\ 0 <= m3 /\
    binary_round_aux prec emax s m e l =
      match m3 with
      | Z0 => S754_zero s
      | Zpos p => if e2 <=? emax - prec then S754_finite s p e2 else S754_infinity s
      | Zneg _ => S754_nan
      end.
Proof.
  intros Hm. unfold binary_round_aux.
  pose proof (shr_fexp_spec m e l Hm) as H1.
  destruct (shr_fexp prec emax m e l) as [r1 e1].
  assert (Hm1 : 0 <= shr_m r1).
  { destruct H1 as [(_ & -> & _)|(Hn & -> & _)]; [lia|].
    apply Z.div_pos; [lia|]. apply Z.pow_pos_nonneg; lia. }
  pose proof (round_nearest_even_bounds (shr_m r1) (loc_of_shr_record r1)) as Hr.
  set (m2 := round_nearest_even (shr_m r1) (loc_of_shr_record r1)) in *.
  pose proof (shr_fexp_spec m2 e1 loc_Exact ltac:(lia)) as H2.
  destruct (shr_fexp prec emax m2 e1 loc_Exact) as [r2 e2].
  exists (shr_m r1), e1, m2, (shr_m r2), e2.
  repeat split; try assumption; try lia.
  destruct H2 as [(_ & -> & _)|(Hn & -> & _)]; [lia|].
  apply Z.div_pos; [lia|]. apply Z.pow_pos_nonneg; lia.
Qed.

(** A product below the largest finite number does not overflow. *)
Lemma binary_round_aux_finite s m e l :
  0 < m -> -2148 <= e <= 971 ->
  m * 2 ^ (e + 2148) < (2 ^ 53 - 1) * 2 ^ (971 + 2148) ->
  binary_round_aux prec emax s m e l = S754_zero s \/
  exists m' e', binary_round_aux prec emax s m e l = S754_finite s m' e'.
Proof.
  intros Hm He Hv.
  destruct (binary_round_aux_steps s m e l ltac:(lia))
    as (m1 & e1 & m2 & m3 & e2 & H1 & Hr & H2 & Hm1 & Hm3 & ->).
  assert (Hlog : Z.log2 m + e <= 1023).
  { pose proof (Z.log2_spec m Hm) as [Hlo _].
    pose proof (Z.log2_nonneg m) as Hl0.
    assert (2 ^ (Z.log2 m + e + 2148) < 2 ^ (1024 + 2148)) as Hp.
    { replace (Z.log2 m + e + 2148) with (Z.log2 m + (e + 2148)) by lia.
      rewrite Z.pow_add_r by lia.
      eapply Z.le_lt_trans.
      - apply Z.mul_le_mono_nonneg_r; [apply Z.pow_nonneg; lia|exact Hlo].
      - eapply Z.lt_trans; [exact Hv|].
        replace (1024 + 2148) with (53 + (971 + 2148)) by lia.
        rewrite (Z.pow_add_r 2 53) by lia.
        apply Z.mul_lt_mono_pos_r; [apply Z.pow_pos_nonneg; lia|lia]. }
    apply Z.pow_lt_mono_r_iff in Hp; lia. }
  assert (He1 : e <= e1 <= 971 /\ m1 * 2 ^ (e1 - e) <= m).
  { cbv zeta in H1. rewrite fexp64_eq in H1.
    destruct H1 as [(_ & -> & ->)|(Hn & -> & ->)].
    - rewrite Z.sub_diag. simpl. lia.
    - rewrite digits_pos' in * by lia.
      split; [lia|].
      replace (e + _ - e) with (Z.max (Z.log2 m + 1 + e - 53) (-1074) - e) by lia.
      rewrite Z.mul_comm. apply Z.mul_div_le. apply Z.pow_pos_nonneg; lia. }
  destruct He1 as [He1 Hm1v].
  assert (Hm2 : m2 < 2 ^ (1024 - e1)).
  { assert (m1 * 2 ^ (e1 + 2148) < (2 ^ 53 - 1) * 2 ^ (971 - e1) * 2 ^ (e1 + 2148)) as Hlt.
    { rewrite <- Z.mul_assoc, <- Z.pow_add_r by lia.
      replace (971 - e1 + (e1 + 2148)) with (971 + 2148) by lia.
      eapply Z.le_lt_trans; [|exact Hv].
      replace (e1 + 2148) with ((e1 - e) + (e + 2148)) by lia.
      rewrite Z.pow_add_r by lia. rewrite Z.mul_assoc.
      apply Z.mul_le_mono_nonneg_r; [apply Z.pow_nonneg; lia|exact Hm1v]. }
    apply Z.mul_lt_mono_pos_r in Hlt; [|apply Z.pow_pos_nonneg; lia].
    replace (1024 - e1) with (53 + (971 - e1)) by lia.
    rewrite Z.pow_add_r by lia.
    assert (0 < 2 ^ (971 - e1)) by (apply Z.pow_pos_nonneg; lia).
    nia. }
  assert (He2 : e2 <= 971).
  { cbv zeta in H2. rewrite fexp64_eq in H2.
    destruct H2 as [(_ & _ & ->)|(Hn & _ & ->)]; [lia|].
    destruct (Z.eq_dec m2 0) as [->|Hne].
    - simpl in *. lia.
    - rewrite digits_pos' in * by lia.
      assert (Z.log2 m2 < 1024 - e1) by (apply Z.log2_lt_pow2; lia).
      lia. }
  destruct m3 as [|p|p]; [left; reflexivity| |lia].
  right. exists p, e2.
  replace (e2 <=? emax - prec) with true; [reflexivity|].
  symmetry. apply Z.leb_le. change (emax - prec) with 971. lia.
Qed.

Lemma log2_div_pow2 m n :
  0 <= n -> 0 < m / 2 ^ n -> Z.log2 (m / 2 ^ n) = Z.log2 m - n.
Proof.
  intros Hn Hq.
  assert (0 < 2 ^ n) by (apply Z.pow_pos_nonneg; lia).
  assert (0 < m).
  { destruct (Z.lt_trichotomy m 0) as [Hneg|[->|?]]; [|rewrite Z.div_0_l in Hq; lia|lia].
    assert (m / 2 ^ n < 0); [|lia]. apply Z.div_lt_upper_bound; lia. }
  rewrite <- Z.shiftr_div_pow2, Z.log2_shiftr by lia.
  assert (n <= Z.log2 m); [|lia].
  apply Z.log2_le_pow2; [lia|].
  pose proof (Z.mul_div_le m (2 ^ n) ltac:(lia)). nia.
Qed.

(** After an alignment that does not shift left, [binary_round_aux]
    returns a number of the format. *)
Lemma binary_round_aux_well_formed s m e l :
  0 < m -> e <= fexp64 (Zdigits2 m + e) ->
  well_formed s (binary_round_aux prec emax s m e l).
Proof.
  intros Hm Hal.
  destruct (binary_round_aux_steps s m e l ltac:(lia))
    as (m1 & e1 & m2 & m3 & e2 & H1 & Hr & H2 & Hm1 & Hm3 & ->).
  cbv zeta in H1, H2. rewrite fexp64_eq in *.
  assert (Inv1 : (0 < m1 /\ Z.max (Zdigits2 m1 + e1 - 53) (-1074) = e1) \/
                 (m1 = 0 /\ e1 = -1074)).
  { destruct H1 as [(Hn & -> & ->)|(Hn & -> & ->)]; [left; lia|].
    rewrite (digits_pos' m) in * by lia.
    remember (Z.max (Z.log2 m + 1 + e - 53) (-1074) - e) as n eqn:En.
    destruct (Z.eq_dec (m / 2 ^ n) 0) as [Hz|Hnz].
    - right. split; [exact Hz|].
      assert (0 < 2 ^ n) by (apply Z.pow_pos_nonneg; lia).
      apply Z.div_small_iff in Hz; [|lia].
      assert (Z.log2 m < n) by (apply Z.log2_lt_pow2; lia).
      lia.
    - left. split; [lia|].
      rewrite (digits_pos' (m / 2 ^ n)) by lia.
      rewrite log2_div_pow2 by lia. lia. }
  assert (Inv2 : m3 = 0 \/
                 (0 < m3 /\ Z.max (Zdigits2 m3 + e2 - 53) (-1074) = e2)).
  { destruct Inv1 as [(Hpos & Hc)|(-> & ->)].
    - assert (Z.log2 m1 <= Z.log2 m2 <= Z.log2 m1 + 1) as Hl.
      { split; [apply Z.log2_le_mono; lia|].
        destruct (Z.eq_dec m2 m1) as [->|]; [lia|].
        replace m2 with (Z.succ m1) by lia. apply Z.log2_succ_le. }
      rewrite (digits_pos' m1) in Hc by lia.
      rewrite (digits_pos' m2) in H2 by lia.
      right.
      destruct H2 as [(Hn & -> & ->)|(Hn & -> & ->)].
      + rewrite (digits_pos' m2) by lia. lia.
      + remember (Z.max (Z.log2 m2 + 1 + e1 - 53) (-1074) - e1) as n eqn:En.
        assert (n = 1) as Hn1 by lia.
        assert (Z.log2 m2 = Z.log2 m1 + 1) as Hl2 by lia.
        assert (0 < m2 / 2 ^ n).
        { rewrite Hn1. simpl (2 ^ 1).
          pose proof (Z.log2_nonneg m1).
          assert (2 ^ 1 <= m2) by (apply Z.log2_le_pow2; lia).
          apply Z.div_str_pos. simpl in *. lia. }
        split; [assumption|].
        rewrite digits_pos', log2_div_pow2 by lia. lia.
    - assert (m2 = 0 \/ m2 = 1) as [->| ->] by lia; simpl in H2.
      + left. destruct H2 as [(_ & -> & _)|(Hn & _)]; lia.
      + right. destruct H2 as [(_ & -> & ->)|(Hn & _)]; [|lia].
        simpl. lia. }
  destruct m3 as [|p|p]; [left; reflexivity| |lia].
  destruct (Z.leb_spec e2 (emax - prec)) as [Hle|Hgt].
  - right; right. exists p, e2. split; [reflexivity|].
    unfold bounded, canonical_mantissa. rewrite fexp64_eq.
    apply andb_true_intro. split; [|apply Z.leb_le; exact Hle].
    apply Z.eqb_eq. destruct Inv2 as [|[_ Hc]]; [lia|exact Hc].
  - right; left. reflexivity.
Qed.

Lemma iter_xO m d : Zpos (Pos.iter xO m d) = Zpos m * 2 ^ Zpos d.
Proof.
  induction d using Pos.peano_ind.
  - simpl. lia.
  - rewrite Pos.iter_succ, Pos2Z.inj_xO, IHd, Pos2Z.inj_succ, Z.pow_succ_r; lia.
Qed.

Lemma binary_round_well_formed s m e :
  well_formed s (binary_round prec emax s m e).
Proof.
  unfold binary_round, shl_align.
  destruct (fexp64 (Zpos (digits2_pos m) + e) - e) as [|d|d] eqn:Hd.
  - apply binary_round_aux_well_formed; [lia|]. simpl Zdigits2. lia.
  - apply binary_round_aux_well_formed; [lia|]. simpl Zdigits2. lia.
  - apply binary_round_aux_well_formed; [lia|].
    rewrite iter_xO.
    change (Zpos (digits2_pos m)) with (Zdigits2 (Zpos m)) in Hd |- *.
    assert (0 < Zpos m * 2 ^ Zpos d) by lia.
    rewrite (digits_pos' (Zpos m * 2 ^ Zpos d)), Z.log2_mul_pow2 by lia.
    rewrite digits_pos in Hd |- *. rewrite !fexp64_eq in *. lia.
Qed.

Lemma binary_normalize_well_formed z :
  0 <= z -> well_formed false (binary_normalize prec emax z 0 false).
Proof.
  destruct z as [|p|p]; intros Hz; [left; reflexivity| |lia].
  apply binary_round_well_formed.
Qed.

(** *** Consequences for the primitive floats *)

Lemma bounded_inv m e :
  bounded prec emax m e = true ->
  -1074 <= e <= 971 /\ Zpos m < 2 ^ 53.
Proof.
  unfold bounded, canonical_mantissa. intros H.
  apply andb_prop in H as [Hc He].
  apply Z.eqb_eq in Hc. apply Z.leb_le in He.
  change (emax - prec) with 971 in He.
  change (Zpos (digits2_pos m)) with (Zdigits2 (Zpos m)) in Hc.
  rewrite fexp64_eq, digits_pos in Hc.
  split; [lia|]. apply Z.log2_lt_pow2; lia.
Qed.

Lemma float_of_int_finite z x :
  0 <= z -> float_of_int z = OK x -> finite_nonneg (Prim2SF x).
Proof.
  unfold float_of_int. intros Hz H.
  destruct (binary_normalize_well_formed z Hz) as [E|[E|(m & e & E & B)]];
    rewrite E in H; [|discriminate|]; injection H as <-.
  - left. reflexivity.
  - right. exists m, e. split; [|exact B].
    apply (Prim2SF_SF2Prim (S754_finite false m e)). exact B.
Qed.

(** Every non-negative int below the largest finite float,
    (2^53 - 1) * 2^971, converts to a float. *)
Lemma float_of_int_converts z :
  0 <= z < (2 ^ 53 - 1) * 2 ^ 971 -> exists x, float_of_int z = OK x.
Proof.
  intros [Hz Hmax]. unfold float_of_int.
  assert (binary_normalize prec emax z 0 false = S754_zero false \/
          exists m e, binary_normalize prec emax z 0 false = S754_finite false m e)
    as [->|(m & e & ->)]; [|eauto..].
  destruct z as [|p|p]; [left; reflexivity| |lia].
  cbn [binary_normalize]. unfold binary_round, shl_align.
  assert (Zpos p * 2 ^ 2148 < (2 ^ 53 - 1) * 2 ^ (971 + 2148)) as Hv.
  { rewrite (Z.pow_add_r 2 971) by lia. rewrite Z.mul_assoc.
    apply Z.mul_lt_mono_pos_r; [apply Z.pow_pos_nonneg; lia|exact Hmax]. }
  destruct (fexp64 (Zpos (digits2_pos p) + 0) - 0) as [|d|d] eqn:Hd.
  - apply binary_round_aux_finite; [lia|lia|exact Hv].
  - apply binary_round_aux_finite; [lia|lia|exact Hv].
  - rewrite fexp64_eq in *.
    apply binary_round_aux_finite; [lia|lia|].
    rewrite iter_xO.
    replace (Z.max (Zpos (digits2_pos p) + 0 - 53) (-1074)) with (- Zpos d) by lia.
    rewrite <- Z.mul_assoc, <- Z.pow_add_r by lia.
    replace (Zpos d + (- Zpos d + 2148)) with 2148 by lia. exact Hv.
Qed.

(** A float strictly between 0.001 and 1.0 is a positive finite number
    below one. *)
Lemma in_open_interval_inv f :
  in_open_interval f = true ->
  exists m e, Prim2SF f = S754_finite false m e /\
              -1074 <= e <= -52 /\ Zpos m * 2 ^ (e + 1074) < 2 ^ 1074.
Proof.
  unfold in_open_interval. intros H. apply andb_prop in H as [Hlo Hhi].
  rewrite ltb_spec in Hlo, Hhi.
  pose proof (Prim2SF_valid f) as Hv.
  change (Prim2SF 1) with (S754_finite false 4503599627370496 (-52)) in Hhi.
  change (Prim2SF 0.001) with (S754_finite false 4611686018427388 (-62)) in Hlo.
  destruct (Prim2SF f) as [s|s| |s m e]; try discriminate.
  - destruct s; discriminate.
  - destruct s; [discriminate|].
    exists m, e. split; [reflexivity|].
    simpl in Hv. apply bounded_inv in Hv as [He Hm].
    unfold SFltb, SFcompare in Hhi.
    destruct (Z.compare_spec e (-52)) as [->|Hlt|Hgt]; try discriminate.
    + destruct (Pos.compare_cont Eq m 4503599627370496) eqn:Hc; try discriminate.
      apply (proj1 (Pos.compare_lt_iff m _)) in Hc.
      assert (Zpos m < 2 ^ 52) as Hm52.
      { change (2 ^ 52) with (Zpos 4503599627370496). exact Hc. }
      clear Hc. split; [lia|].
      eapply Z.lt_le_trans.
      * apply Z.mul_lt_mono_pos_r; [apply Z.pow_pos_nonneg; lia|exact Hm52].
      * rewrite <- Z.pow_add_r by lia. apply Z.pow_le_mono_r; lia.
    + split; [lia|].
      eapply Z.lt_le_trans.
      * apply Z.mul_lt_mono_pos_r; [apply Z.pow_pos_nonneg; lia|exact Hm].
      * rewrite <- Z.pow_add_r by lia. apply Z.pow_le_mono_r; lia.
Qed.

(** Scaling a finite non-negative number by a factor of the open
    interval gives a finite non-negative number: no overflow, no NaN. *)
Lemma mul_finite_nonneg x f :
  finite_nonneg (Prim2SF x) -> in_open_interval f = true ->
  finite_nonneg (Prim2SF (x * f)).
Proof.
  intros Hx Hf.
  destruct (in_open_interval_inv f Hf) as (mf & ef & Ef & Hef & Hmf).
  assert (Prim2SF (x * f) = S754_zero false \/
          exists m e, Prim2SF (x * f) = S754_finite false m e) as Hr.
  { rewrite mul_spec, Ef. unfold SF64mul.
    destruct Hx as [->|(mx & ex & -> & Bx)]; [left; reflexivity|].
    apply bounded_inv in Bx as [Hex Hmx]. simpl.
    apply binary_round_aux_finite; [lia|lia|].
    rewrite Pos2Z.inj_mul.
    replace (ex + ef + 2148) with ((ex + 1074) + (ef + 1074)) by lia.
    rewrite Z.pow_add_r by lia.
    replace (971 + 2148) with ((971 + 1074) + 1074) by lia.
    rewrite (Z.pow_add_r 2 (971 + 1074)) by lia.
    assert (0 < 2 ^ (ex + 1074)) by (apply Z.pow_pos_nonneg; lia).
    assert (2 ^ (ex + 1074) <= 2 ^ (971 + 1074)) by (apply Z.pow_le_mono_r; lia).
    assert (0 < 2 ^ (ef + 1074)) by (apply Z.pow_pos_nonneg; lia).
    remember (2 ^ (ex + 1074)) as px. remember (2 ^ (ef + 1074)) as pf.
    remember (2 ^ (971 + 1074)) as pmax. remember (2 ^ 1074) as pone.
    assert (Zpos mx * px <= (2 ^ 53 - 1) * pmax) by nia.
    assert (0 < Zpos mx * px) by nia.
    nia. }
  pose proof (Prim2SF_valid (x * f)) as Hv.
  destruct Hr as [->|(m & e & Hr)]; [left; reflexivity|].
  right. exists m, e. rewrite Hr in Hv |- *. split; [reflexivity|exact Hv].
Qed.

Lemma SFmul_comm a b : SFmul prec emax a b = SFmul prec emax b a.
Proof.
  destruct a as [sa|sa| |sa ma ea], b as [sb|sb| |sb mb eb]; simpl;
    rewrite ?(xorb_comm sa sb), ?(Pos.mul_comm ma mb), ?(Z.add_comm ea eb);
    reflexivity.
Qed.

Lemma mul_comm x y : (x * y)%float = (y * x)%float.
Proof.
  apply Prim2SF_inj. rewrite !mul_spec. apply SFmul_comm.
Qed.

Lemma py_int_finite_nonneg y :
  finite_nonneg (Prim2SF y) -> exists z, py_int (NFloat y) = OK z /\ 0 <= z.
Proof.
  unfold py_int. intros [->|(m & e & -> & _)]; simpl.
  - exists 0. split; [reflexivity|lia].
  - exists (Z.shiftl (Zpos m) e). split; [reflexivity|].
    apply Z.shiftl_nonneg. lia.
Qed.

End IEEE.


(** ** The parameter tuner *)

Lemma strictly_inside_float f :
  strictly_inside (VFloat f) = OK (in_open_interval f).
Proof.
  unfold strictly_inside, in_open_interval, py_lt. simpl.
  destruct (PrimFloat.ltb 0.001 f); reflexivity.
Qed.

(** The product the tuner forms for one factor, its truncation, and the
    same number in the specification's words. *)
Lemma tuner_product r x f :
  0 <= r -> float_of_int r = OK x ->
  exists y a,
    (if in_open_interval f
     then py_mul (VInt r) (VFloat f)
     else py_mul (VInt r) (VFloat 0.2)) = OK (NFloat y) /\
    py_int (NFloat y) = OK a /\
    spec_component r f = OK a /\
    0 <= a.
Proof.
  intros Hr Hx. unfold spec_component, int_of_product, py_mul. simpl.
  rewrite Hx. simpl.
  destruct (in_open_interval f) eqn:Hf.
  - destruct (IEEE.py_int_finite_nonneg (x * f)) as (a & Ha & Hpos).
    { apply IEEE.mul_finite_nonneg; [eapply IEEE.float_of_int_finite; eauto|exact Hf]. }
    exists (x * f)%float, a. auto.
  - destruct (IEEE.py_int_finite_nonneg (x * 0.2)) as (a & Ha & Hpos).
    { apply IEEE.mul_finite_nonneg;
        [eapply IEEE.float_of_int_finite; eauto|reflexivity]. }
    exists (x * 0.2)%float, a. rewrite (IEEE.mul_comm 0.2 x). auto.
Qed.

Lemma tuner_total r x tf sf :
  0 <= r -> float_of_int r = OK x ->
  exists a b,
    isolation_forest_params (VFloat tf) (VFloat sf) (VInt r) = OK (a, b) /\
    spec_component r tf = OK a /\ spec_component r sf = OK b /\
    0 <= a /\ 0 <= b.
Proof.
  intros Hr Hx.
  destruct (tuner_product r x tf Hr Hx) as (y1 & a & P1 & I1 & S1 & N1).
  destruct (tuner_product r x sf Hr Hx) as (y2 & b & P2 & I2 & S2 & N2).
  exists a, b. repeat split; try assumption.
  unfold isolation_forest_params.
  rewrite (strictly_inside_float tf), (strictly_inside_float sf).
  cbn [mbind result_bind].
  rewrite P1. cbn [mbind result_bind].
  rewrite P2. cbn [mbind result_bind].
  rewrite I1. cbn [mbind result_bind].
  rewrite I2. reflexivity.
Qed.

(** C1, as the specification states it, fails: a row count too large for
    a float makes the product raise [OverflowError]. *)
Lemma tuner_overflow_counterexample :
  0 <= 2 ^ 1024 /\
  isolation_forest_params (VFloat 0.3) (VFloat 0.3) (VInt (2 ^ 1024))
  = Raise OverflowError.
Proof. split; [lia|]. vm_compute. reflexivity. Qed.

(** C1 (amended): for every non-negative row count [r] that converts to
    a float, and every pair of float factors, the tuner returns without
    raising; each component is [int(r * f)] when its factor [f] lies
    strictly inside (0.001, 1.0) and [int(0.2 * r)] otherwise, the
    boundaries 0.001 and 1.0 falling to the fallback. *)
Theorem tuner_components (r : Z) (tf sf x : float) :
  0 <= r -> float_of_int r = OK x ->
  exists a b,
    isolation_forest_params (VFloat tf) (VFloat sf) (VInt r) = OK (a, b) /\
    spec_component r tf = OK a /\
    spec_component r sf = OK b /\
    in_open_interval 0.001 = false /\
    in_open_interval 1 = false.
Proof.
  intros Hr Hx.
  destruct (tuner_total r x tf sf Hr Hx) as (a & b & H & Sa & Sb & _).
  exists a, b. repeat split; assumption || reflexivity.
Qed.

Lemma tuner_components_witness :
  exists a b,
    isolation_forest_params (VFloat 0.3) (VFloat 1) (VInt 100) = OK (a, b) /\
    spec_component 100 0.3 = OK a /\
    spec_component 100 1 = OK b /\
    in_open_interval 0.001 = false /\
    in_open_interval 1 = false.
Proof.
  apply (tuner_components 100 0.3 1 100); [lia|vm_compute; reflexivity].
Defined.

(** C2, as the specification states it, fails: a single row is
    truncated to zero trees and a sample of zero. *)
Lemma tuner_zero_counterexample :
  0 < 1 /\
  isolation_forest_params (VFloat 0.3) (VFloat 0.3) (VInt 1) = OK (0, 0) /\
  ~ (0 < 0).
Proof. split; [lia|]. split; [vm_compute; reflexivity|lia]. Qed.

(** C2 (amended): for every row count strictly greater than zero that
    converts to a float, both derived components are non-negative
    integers. *)
Theorem tuner_nonnegative (r : Z) (tf sf x : float) :
  0 < r -> float_of_int r = OK x ->
  exists a b,
    isolation_forest_params (VFloat tf) (VFloat sf) (VInt r) = OK (a, b) /\
    0 <= a /\ 0 <= b.
Proof.
  intros Hr Hx.
  destruct (tuner_total r x tf sf ltac:(lia) Hx) as (a & b & H & _ & _ & Na & Nb).
  exists a, b. auto.
Qed.

Lemma tuner_nonnegative_witness :
  exists a b,
    isolation_forest_params (VFloat 0.3) (VFloat 0.5) (VInt 7) = OK (a, b) /\
    0 <= a /\ 0 <= b.
Proof.
  apply (tuner_nonnegative 7 0.3 0.5 7); [lia|vm_compute; reflexivity].
Defined.


(** Some runs of the tuner. *)

Example tune_end_to_end :
  isolation_forest_params (VFloat 0.3) (VFloat 0.3) (VInt 100) = OK (30, 30).
Proof. vm_compute. reflexivity. Qed.

Example tune_boundaries :
  isolation_forest_params (VFloat 0.001) (VFloat 1) (VInt 100) = OK (20, 20).
Proof. vm_compute. reflexivity. Qed.

Example tune_not_a_number :
  isolation_forest_params (VFloat nan) (VFloat infinity) (VInt 50) = OK (10, 10).
Proof. vm_compute. reflexivity. Qed.

Example tune_int_factor :
  isolation_forest_params (VInt 1) (VInt 0) (VInt 10) = OK (2, 2).
Proof. vm_compute. reflexivity. Qed.

Example tune_no_rows :
  isolation_forest_params (VFloat 0.5) (VFloat 0.5) (VInt 0) = OK (0, 0).
Proof. vm_compute. reflexivity. Qed.

Example tune_not_a_number_of_rows :
  isolation_forest_params (VFloat 0.5) (VFloat 0.5) (VStr "many") = Raise TypeError.
Proof. vm_compute. reflexivity. Qed.

(** ** The trace monad *)

Lemma outcome_bind {A B} (m : M A) (f : A -> M B) :
  outcome (m ≫= f) =
  match outcome m with
  | OK a => outcome (f a)
  | Raise e => Raise e
  end.
Proof. unfold mbind, M_bind. destruct (outcome m); reflexivity. Qed.

Lemma trace_bind {A B} (m : M A) (f : A -> M B) :
  trace (m ≫= f) =
  trace m ++ match outcome m with
             | OK a => trace (f a)
             | Raise _ => []
             end.
Proof.
  unfold mbind, M_bind. destruct (outcome m); simpl; [reflexivity|].
  symmetry. apply app_nil_r.
Qed.

(** Running past a step whose result is known. *)
Lemma bind_lift_OK {A B} (a : A) (f : A -> M B) : lift (OK a) ≫= f = f a.
Proof. unfold mbind, M_bind. simpl. destruct (f a); reflexivity. Qed.

Ltac run_lift :=
  repeat (rewrite bind_lift_OK; cbv beta).

Lemma bind_emit_prefix {B} (e : event) (f : unit -> M B) :
  emit e ≫= f = prefix [e] (f tt).
Proof. reflexivity. Qed.

Lemma bind_log_prefix {B} lvl fmt args (f : unit -> M B) :
  log lvl fmt args ≫= f = prefix [Log lvl fmt args] (f tt).
Proof. reflexivity. Qed.

Lemma bind_known {A B} (m : M A) (f : A -> M B) a :
  outcome m = OK a -> m ≫= f = prefix (trace m) (f a).
Proof. unfold mbind, M_bind, prefix. intros ->. reflexivity. Qed.

Lemma prefix_bind {A B} t (m : M A) (f : A -> M B) :
  prefix t m ≫= f = prefix t (m ≫= f).
Proof.
  unfold prefix, mbind, M_bind. simpl.
  destruct (outcome m); simpl; [rewrite app_assoc|]; reflexivity.
Qed.

Lemma trace_prefix {A} t (m : M A) : trace (prefix t m) = t ++ trace m.
Proof. reflexivity. Qed.

Lemma outcome_prefix {A} t (m : M A) : outcome (prefix t m) = outcome m.
Proof. reflexivity. Qed.

Lemma trace_timed {A} metric (m : M A) :
  trace (timed metric m) = TimerStart metric :: trace m ++ [TimerStop metric].
Proof. reflexivity. Qed.

Lemma outcome_timed {A} metric (m : M A) : outcome (timed metric m) = outcome m.
Proof. reflexivity. Qed.

Lemma bind_raised {A B} (m : M A) (f : A -> M B) e :
  outcome m = Raise e -> m ≫= f = Run (trace m) (Raise e).
Proof. unfold mbind, M_bind. intros ->. reflexivity. Qed.

Lemma try_except_OK {A} (body : M A) caught handler a :
  outcome body = OK a -> try_except body caught handler = body.
Proof. unfold try_except. intros ->. reflexivity. Qed.

Lemma try_except_caught {A} (body : M A) caught handler e :
  outcome body = Raise e -> caught e = true ->
  try_except body caught handler = prefix (trace body) (handler e).
Proof. unfold try_except. intros -> ->. reflexivity. Qed.

Lemma try_except_uncaught {A} (body : M A) caught handler e :
  outcome body = Raise e -> caught e = false ->
  try_except body caught handler = body.
Proof. unfold try_except. intros -> ->. reflexivity. Qed.

Lemma incremented_app metric t1 t2 :
  incremented metric (t1 ++ t2)
  = (incremented metric t1 + incremented metric t2)%nat.
Proof. unfold incremented. rewrite List.filter_app, length_app. reflexivity. Qed.

Lemma requests_made_app t1 t2 :
  requests_made (t1 ++ t2) = (requests_made t1 + requests_made t2)%nat.
Proof. unfold requests_made. rewrite List.filter_app, length_app. reflexivity. Qed.

(** ** Stages of a trace *)

Lemma stages_app t1 t2 : stages (t1 ++ t2) = stages t1 ++ stages t2.
Proof. unfold stages. apply omap_app. Qed.

Lemma nondecreasing_app l1 l2 :
  nondecreasing l1 = true -> nondecreasing l2 = true ->
  (forall a b, In a l1 -> In b l2 -> (a <= b)%nat) ->
  nondecreasing (l1 ++ l2) = true.
Proof.
  induction l1 as [|a [|a' l1] IH]; intros H1 H2 Hle.
  - exact H2.
  - destruct l2 as [|b l2]; [reflexivity|].
    cbn [app nondecreasing]. apply andb_true_intro. split; [|exact H2].
    apply Nat.leb_le. apply Hle; left; reflexivity.
  - cbn [nondecreasing] in H1. apply andb_prop in H1 as [Ha H1].
    change ((a :: a' :: l1) ++ l2) with (a :: (a' :: l1) ++ l2).
    cbn [app nondecreasing]. apply andb_true_intro. split; [exact Ha|].
    apply IH; [exact H1|exact H2|].
    intros x y Hx Hy. apply Hle; [right; exact Hx|exact Hy].
Qed.

Lemma within_nil lo hi : within lo hi [].
Proof. split; [reflexivity|]. intros s []. Qed.

Lemma within_app lo mid hi t1 t2 :
  (lo <= mid <= hi)%nat ->
  within lo mid t1 -> within mid hi t2 -> within lo hi (t1 ++ t2).
Proof.
  intros Hm [S1 B1] [S2 B2]. unfold within, in_order in *.
  rewrite stages_app. split.
  - rewrite map_app. apply nondecreasing_app; [exact S1|exact S2|].
    intros a b Ha Hb.
    apply in_map_iff in Ha as (sa & <- & Ha).
    apply in_map_iff in Hb as (sb & <- & Hb).
    specialize (B1 sa Ha). specialize (B2 sb Hb). lia.
  - intros s Hs. apply in_app_or in Hs as [Hs|Hs].
    + specialize (B1 s Hs). lia.
    + specialize (B2 s Hs). lia.
Qed.

Lemma within_weaken lo hi lo' hi' t :
  (lo' <= lo)%nat -> (hi <= hi')%nat -> within lo hi t -> within lo' hi' t.
Proof.
  intros Hlo Hhi [S B]. split; [exact S|].
  intros s Hs. specialize (B s Hs). lia.
Qed.

Lemma within_silent lo hi e : stage_of e = None -> within lo hi [e].
Proof.
  intros He. unfold within, in_order, stages. cbn [omap list_omap].
  rewrite He. split; [reflexivity|]. intros s [].
Qed.

Lemma within_event lo hi e s :
  stage_of e = Some s -> (lo <= code_rank s <= hi)%nat -> within lo hi [e].
Proof.
  intros He Hr. unfold within, in_order, stages. cbn [omap list_omap].
  rewrite He. split; [reflexivity|].
  intros s' [<-|[]]. exact Hr.
Qed.

Lemma within_cons lo hi e t :
  within lo lo [e] -> (lo <= hi)%nat -> within lo hi t -> within lo hi (e :: t).
Proof.
  intros He Hle Ht. change (e :: t) with ([e] ++ t).
  apply (within_app lo lo hi); [lia|exact He|exact Ht].
Qed.

Lemma count_none (p : event -> bool) t :
  (forall e, In e t -> p e = false) -> length (List.filter p t) = 0%nat.
Proof.
  induction t as [|e t IH]; intros Hp; [reflexivity|].
  cbn [List.filter]. rewrite (Hp e (or_introl eq_refl)).
  apply IH. intros e' He'. apply Hp. right. exact He'.
Qed.

Lemma within_In lo hi t e s :
  within lo hi t -> In e t -> stage_of e = Some s ->
  (lo <= code_rank s <= hi)%nat.
Proof.
  intros [_ B] He Hs. apply B. unfold stages.
  apply list_elem_of_In, list_elem_of_omap. exists e.
  split; [apply list_elem_of_In; exact He|exact Hs].
Qed.

(** Before the delivery stage no request is sent, and before the last
    stage the counter is not touched. *)
Lemma within_no_request lo hi t :
  within lo hi t -> (hi < 5)%nat -> requests_made t = 0%nat.
Proof.
  intros Hw Hhi. apply count_none. intros e He.
  destruct (is_request e) eqn:Hr; [|reflexivity].
  destruct e; try discriminate.
  pose proof (within_In lo hi _ _ Deliver Hw He eq_refl) as Hb.
  cbn [code_rank] in Hb. lia.
Qed.

Lemma within_no_inc lo hi t metric :
  within lo hi t -> (hi < 6)%nat -> incremented metric t = 0%nat.
Proof.
  intros Hw Hhi. apply count_none. intros e He.
  destruct (is_inc metric e) eqn:Hr; [|reflexivity].
  destruct e; try discriminate.
  pose proof (within_In lo hi _ _ Complete Hw He eq_refl) as Hb.
  cbn [code_rank] in Hb. lia.
Qed.

(** Stages of the monad's operations. *)

Lemma staged_lift {A} lo hi (r : result A) : staged lo hi (lift r).
Proof. apply within_nil. Qed.

Lemma staged_ret {A} lo hi (a : A) : staged lo hi (mret a : M A).
Proof. apply within_nil. Qed.

Lemma staged_bind {A B} lo mid hi (m : M A) (f : A -> M B) :
  (lo <= mid <= hi)%nat ->
  staged lo mid m -> (forall a, staged mid hi (f a)) ->
  staged lo hi (m ≫= f).
Proof.
  intros Hm Hs Hf. unfold staged. rewrite trace_bind.
  apply (within_app lo mid hi); [exact Hm|exact Hs|].
  destruct (outcome m) as [a|e]; [apply Hf|apply within_nil].
Qed.

Lemma staged_weaken {A} lo hi lo' hi' (m : M A) :
  (lo' <= lo)%nat -> (hi <= hi')%nat -> staged lo hi m -> staged lo' hi' m.
Proof. apply within_weaken. Qed.

Lemma staged_emit_silent lo hi e : stage_of e = None -> staged lo hi (emit e).
Proof. apply within_silent. Qed.

Lemma staged_emit lo hi e s :
  stage_of e = Some s -> (lo <= code_rank s <= hi)%nat -> staged lo hi (emit e).
Proof. apply within_event. Qed.

Lemma staged_try_except {A} lo mid hi (body : M A) caught handler :
  (lo <= mid <= hi)%nat ->
  staged lo mid body -> (forall e, staged mid hi (handler e)) ->
  staged lo hi (try_except body caught handler).
Proof.
  intros Hm Hb Hh. unfold staged, try_except.
  destruct (outcome body) as [a|e].
  - eapply within_weaken; [| |exact Hb]; lia.
  - destruct (caught e); cbn [trace].
    + apply (within_app lo mid hi); [exact Hm|exact Hb|apply Hh].
    + eapply within_weaken; [| |exact Hb]; lia.
Qed.

Lemma staged_timed {A} lo hi metric (body : M A) :
  within lo lo [TimerStart metric] -> within hi hi [TimerStop metric] ->
  (lo <= hi)%nat ->
  staged lo hi body -> staged lo hi (timed metric body).
Proof.
  intros H1 H2 Hle Hb. unfold staged. rewrite trace_timed.
  apply within_cons; [exact H1|exact Hle|].
  apply (within_app lo hi hi); [lia|exact Hb|exact H2].
Qed.

Ltac staged_block k :=
  repeat first
    [ apply staged_lift
    | apply staged_ret
    | apply staged_emit_silent; reflexivity
    | eapply staged_emit; [reflexivity|cbn [code_rank]; lia]
    | eapply within_event; [reflexivity|cbn [code_rank]; lia]
    | apply within_silent; reflexivity
    | apply (staged_bind k k k); [lia| |intros ?]
    | apply staged_timed; [ | |lia| ]
    | match goal with
      | |- staged _ _ (match ?x with _ => _ end) => destruct x
      | |- staged _ _ (if ?x then _ else _) => destruct x
      end ].

(** ** The status of a response *)

Lemma append_nonempty (s : string) c t : s +:+ String c t <> EmptyString.
Proof. destruct s; discriminate. Qed.

Lemma raise_for_status_error resp :
  is_error_status resp = true ->
  raise_for_status resp = Raise (HTTPError (http_error_msg resp)).
Proof.
  unfold is_error_status, raise_for_status, http_error_msg. intros H.
  apply andb_prop in H as [Hlo Hhi].
  apply Z.leb_le in Hlo. apply Z.ltb_lt in Hhi.
  destruct (status_code resp <? 500) eqn:H5.
  - replace (400 <=? status_code resp) with true by (symmetry; apply Z.leb_le; lia).
    cbn [andb].
    destruct (pretty (status_code resp) +:+ " Client Error: " +:+ reason resp
              +:+ " for url: " +:+ response_url resp) eqn:Hm; [|reflexivity].
    apply append_nonempty in Hm. destruct Hm.
  - apply Z.ltb_ge in H5.
    rewrite andb_false_r.
    replace (500 <=? status_code resp) with true by (symmetry; apply Z.leb_le; lia).
    replace (status_code resp <? 600) with true by (symmetry; apply Z.ltb_lt; lia).
    cbn [andb].
    destruct (pretty (status_code resp) +:+ " Server Error: " +:+ reason resp
              +:+ " for url: " +:+ response_url resp) eqn:Hm; [|reflexivity].
    apply append_nonempty in Hm. destruct Hm.
Qed.

Lemma raise_for_status_ok resp :
  is_error_status resp = false -> raise_for_status resp = OK tt.
Proof.
  unfold is_error_status, raise_for_status, http_error_msg. intros H.
  apply andb_false_iff in H.
  replace ((400 <=? status_code resp) && (status_code resp <? 500)) with false.
  - replace ((500 <=? status_code resp) && (status_code resp <? 600)) with false;
      [reflexivity|].
    symmetry. apply andb_false_iff.
    destruct H as [H|H]; [left|right; exact H].
    apply Z.leb_gt in H. apply Z.leb_gt. lia.
  - symmetry. apply andb_false_iff.
    destruct H as [H|H]; [left; exact H|right].
    apply Z.ltb_ge in H. apply Z.ltb_ge. lia.
Qed.

(** ** The retry executor *)

Section Retry.

Variable thread_name : string.
Variable send : nat -> reply.
Variables (method url : string) (json headers : value).

#[local] Abbreviation loop := (retry_loop thread_name send method url json headers).

(** A failed attempt is followed by the rest of the loop. *)
Lemma retry_loop_failed attempt range :
  attempt_fails (send attempt) = true ->
  outcome (loop (attempt :: range)) = outcome (loop range) /\
  requests_made (trace (loop (attempt :: range)))
  = S (requests_made (trace (loop range))).
Proof.
  intros Hf. cbn [retry_loop].
  rewrite outcome_bind, trace_bind.
  destruct (send attempt) as [resp|e]; cbn [attempt_fails] in Hf.
  - cbn -[raise_for_status]. rewrite (raise_for_status_error resp Hf).
    split; reflexivity.
  - destruct e; try discriminate. split; reflexivity.
Qed.

(** A response without an error status ends the loop. *)
Lemma retry_loop_succeeded attempt range resp :
  send attempt = Responds resp -> is_error_status resp = false ->
  loop (attempt :: range)
  = Run [Request attempt method url json headers] (OK resp).
Proof.
  intros Hs Hok. cbn [retry_loop]. rewrite Hs.
  cbn -[raise_for_status]. rewrite (raise_for_status_ok resp Hok). reflexivity.
Qed.

Lemma retry_loop_all_failed range :
  (forall n, In n range -> attempt_fails (send n) = true) ->
  outcome (loop range) = Raise (HTTPError "All attempts failed") /\
  requests_made (trace (loop range)) = length range.
Proof.
  induction range as [|a range IH]; intros Hall.
  - split; reflexivity.
  - destruct (retry_loop_failed a range) as [Ho Hn].
    { apply Hall. left. reflexivity. }
    destruct IH as [IHo IHn].
    { intros n Hn'. apply Hall. right. exact Hn'. }
    rewrite Ho, Hn, IHo, IHn. split; reflexivity.
Qed.

Lemma retry_loop_first_success pre attempt post resp :
  (forall n, In n pre -> attempt_fails (send n) = true) ->
  send attempt = Responds resp -> is_error_status resp = false ->
  outcome (loop (pre ++ attempt :: post)) = OK resp /\
  requests_made (trace (loop (pre ++ attempt :: post))) = S (length pre).
Proof.
  intros Hpre Hs Hok. induction pre as [|a pre IH]; simpl app.
  - rewrite (retry_loop_succeeded attempt post resp Hs Hok). split; reflexivity.
  - destruct (retry_loop_failed a (pre ++ attempt :: post)) as [Ho Hn].
    { apply Hpre. left. reflexivity. }
    destruct IH as [IHo IHn].
    { intros n Hn'. apply Hpre. right. exact Hn'. }
    rewrite Ho, Hn, IHo, IHn. split; reflexivity.
Qed.

(** One turn of the loop: the request is retried, answered, or ends in
    an exception the loop does not catch. *)
Lemma retry_loop_step attempt range :
  (exists msg,
     loop (attempt :: range) =
     prefix [Request attempt method url json headers;
             Log WARNING "%s: Request failed (attempt #%d), retrying: %s"
               [VStr thread_name; VInt (Z.of_nat attempt); VStr msg]]
            (loop range)) \/
  (exists resp,
     loop (attempt :: range) =
     Run [Request attempt method url json headers] (OK resp)) \/
  (exists e,
     send attempt = Fails e /\ is_request_failure e = false /\
     loop (attempt :: range) =
     Run [Request attempt method url json headers] (Raise e)).
Proof.
  cbn [retry_loop].
  destruct (send attempt) as [resp|e].
  - destruct (is_error_status resp) eqn:Hs.
    + left. exists (http_error_msg resp).
      cbn -[raise_for_status]. rewrite (raise_for_status_error resp Hs). reflexivity.
    + right; left. exists resp.
      cbn -[raise_for_status]. rewrite (raise_for_status_ok resp Hs). reflexivity.
  - destruct (is_request_failure e) eqn:He.
    + left. exists (exn_str e). destruct e; try discriminate; reflexivity.
    + right; right. exists e. split; [reflexivity|]. split; [exact He|].
      destruct e; try discriminate; reflexivity.
Qed.

(** The loop sends requests with the arguments it was given and logs
    warnings, nothing else. *)
Lemma retry_loop_events range :
  Forall (fun e => (exists attempt, e = Request attempt method url json headers) \/
                   (exists args,
                      e = Log WARNING
                            "%s: Request failed (attempt #%d), retrying: %s" args))
         (trace (loop range)).
Proof.
  induction range as [|a range IH].
  - constructor.
  - destruct (retry_loop_step a range)
      as [(msg & ->)|[(resp & ->)|(e & _ & _ & ->)]]; cbn [trace prefix].
    + constructor; [left; eauto|]. constructor; [right; eauto|]. exact IH.
    + constructor; [left; eauto|constructor].
    + constructor; [left; eauto|constructor].
Qed.

Lemma retry_loop_head attempt range :
  exists t, trace (loop (attempt :: range))
            = Request attempt method url json headers :: t.
Proof.
  destruct (retry_loop_step attempt range)
    as [(msg & ->)|[(resp & ->)|(e & _ & _ & ->)]]; cbn [trace prefix app];
    eauto.
Qed.


Lemma staged_retry_loop range : staged 5 5 (loop range).
Proof.
  unfold staged. pose proof (retry_loop_events range) as Hev.
  induction Hev as [|e t He _ IH]; [apply within_nil|].
  apply within_cons; [|lia|exact IH].
  destruct He as [(a & ->)|(args & ->)].
  - eapply within_event; [reflexivity|cbn [code_rank]; lia].
  - apply within_silent. reflexivity.
Qed.

End Retry.

(** C3: when every attempt fails, by an error status or by a connection
    failure, [_retryable] makes exactly [MAX_RETRIES] = 3 requests and
    then raises [HTTPError('All attempts failed')] instead of returning
    a response. *)
Theorem retryable_exhausted
    (thread_name : string) (send : nat -> reply)
    (method url : string) (json headers : value) :
  (forall n, (n < MAX_RETRIES)%nat -> attempt_fails (send n) = true) ->
  let run := _retryable thread_name send method url json headers in
  outcome run = Raise (HTTPError "All attempts failed") /\
  requests_made (trace run) = 3%nat /\
  requests_made (trace run) = MAX_RETRIES.
Proof.
  intros Hall run.
  destruct (retry_loop_all_failed thread_name send method url json headers
              (seq 0 MAX_RETRIES)) as [Ho Hn].
  { intros n Hin. apply Hall. apply in_seq in Hin. lia. }
  rewrite length_seq in Hn. repeat split; assumption.
Qed.

Lemma retryable_exhausted_witness :
  let run := _retryable "Thread-1" (fun _ => Responds (Response 500 "Server Error" "http://next"))
               "post" "http://next" VNone VNone in
  outcome run = Raise (HTTPError "All attempts failed") /\
  requests_made (trace run) = 3%nat /\
  requests_made (trace run) = MAX_RETRIES.
Proof.
  apply (retryable_exhausted "Thread-1" (fun _ => Responds (Response 500 "Server Error" "http://next"))).
  intros n Hn. reflexivity.
Defined.

(** C4: when the [k]-th attempt ([k] at most 3) is the first to yield a
    response without an error status, [_retryable] returns that response
    after exactly [k] requests. *)
Theorem retryable_first_success
    (thread_name : string) (send : nat -> reply)
    (method url : string) (json headers : value)
    (k : nat) (resp : response) :
  (1 <= k <= MAX_RETRIES)%nat ->
  (forall n, (n < k - 1)%nat -> attempt_fails (send n) = true) ->
  send (k - 1)%nat = Responds resp ->
  is_error_status resp = false ->
  let run := _retryable thread_name send method url json headers in
  outcome run = OK resp /\ requests_made (trace run) = k.
Proof.
  intros Hk Hpre Hs Hok run. subst run. unfold _retryable.
  replace MAX_RETRIES with ((k - 1) + S (MAX_RETRIES - k))%nat by lia.
  rewrite seq_app. cbn [seq]. rewrite Nat.add_0_l.
  destruct (retry_loop_first_success thread_name send method url json headers
              (seq 0 (k - 1)) (k - 1)%nat
              (seq (S (k - 1)) (MAX_RETRIES - k)) resp) as [Ho Hn];
    try assumption.
  { intros n Hin. apply Hpre. apply in_seq in Hin. lia. }
  rewrite length_seq in Hn. split; [exact Ho|]. rewrite Hn. lia.
Qed.

Lemma retryable_first_success_witness :
  let run := _retryable "Thread-1"
               (fun n => if (n <? 1)%nat
                         then Fails (ConnectionError "refused")
                         else Responds (Response 202 "Accepted" "http://next"))
               "post" "http://next" VNone VNone in
  outcome run = OK (Response 202 "Accepted" "http://next") /\
  requests_made (trace run) = 2%nat.
Proof.
  apply (retryable_first_success "Thread-1"
           (fun n => if (n <? 1)%nat
                     then Fails (ConnectionError "refused")
                     else Responds (Response 202 "Accepted" "http://next"))
           "post" "http://next" VNone VNone 2 (Response 202 "Accepted" "http://next")).
  - unfold MAX_RETRIES. lia.
  - intros n Hn. assert (n = 0%nat) as -> by lia. reflexivity.
  - reflexivity.
  - reflexivity.
Defined.

(** ** The job worker *)

Lemma subscript_Some (d : gmap string value) key v :
  d !! key = Some v -> subscript d key = OK v.
Proof. unfold subscript, getitem. intros ->. reflexivity. Qed.

Lemma subscript_None (d : gmap string value) key :
  d !! key = None -> subscript d key = Raise (KeyError key).
Proof. unfold subscript, getitem. intros ->. reflexivity. Qed.

Lemma getitem_Some (d : gmap string value) key v :
  d !! key = Some v -> getitem (VDict d) key = OK v.
Proof. apply subscript_Some. Qed.

Lemma getitem_None (d : gmap string value) key :
  d !! key = None -> getitem (VDict d) key = Raise (KeyError key).
Proof. apply subscript_None. Qed.

Lemma subscript_cases (d : gmap string value) key :
  (exists v, subscript d key = OK v) \/ subscript d key = Raise (KeyError key).
Proof.
  unfold subscript, getitem. destruct (d !! key) as [v|]; [left; exists v|right];
    reflexivity.
Qed.

Section WorkerProperties.

Context {frame forest : Type}.
Variables (thread_name uuid1 : string).
Variables (FEATURE_LIST : list value) (RAD_STRATEGY : string).
Variable inventory_data_to_pandas : value -> list value -> result frame.
Variable preprocess : frame -> result (frame * value).
Variable IsolationForest : frame -> Z -> Z -> result forest.
Variable predict : forest -> frame -> value -> result (list value).
Variable RADIsolationForest : Z -> Z -> result forest.
Variable fit_predict_contrast : forest -> frame -> frame -> result (list value).
Variable send : nat -> reply.

#[local] Abbreviation the_worker :=
  (ai_service_worker thread_name uuid1 FEATURE_LIST RAD_STRATEGY
     inventory_data_to_pandas preprocess IsolationForest predict
     RADIsolationForest fit_predict_contrast send).

(** *** The stages of the steps of the worker *)

Lemma staged_rad_original data_frame n sz min_score :
  staged 3 3 (rad_original IsolationForest predict data_frame n sz min_score).
Proof. unfold rad_original. staged_block 3%nat. Qed.

Lemma staged_scikitlearn data_frame n sz :
  staged 3 3 (scikitlearn RADIsolationForest fit_predict_contrast data_frame n sz).
Proof. unfold scikitlearn. staged_block 3%nat. Qed.

Lemma staged_run_strategy env data_frame n sz :
  staged 3 3 (run_strategy RAD_STRATEGY IsolationForest predict
                RADIsolationForest fit_predict_contrast env data_frame n sz).
Proof.
  unfold run_strategy. destruct (String.eqb RAD_STRATEGY "scikitlearn").
  - apply staged_scikitlearn.
  - apply (staged_bind 3 3 3); [lia|apply staged_lift|intros min_score].
    apply staged_rad_original.
Qed.

Lemma staged_validate job : staged 0 0 (validate thread_name job).
Proof.
  unfold validate. apply (staged_try_except 0 0 0); [lia| |intros e].
  - staged_block 0%nat.
  - staged_block 0%nat.
Qed.

Lemma staged_deliver next_service b64_identity batch_id output :
  staged 5 6 (deliver thread_name send next_service b64_identity batch_id output).
Proof.
  unfold deliver.
  apply (staged_bind 5 6 6); [lia| |intros _].
  { apply (staged_try_except 5 5 6); [lia| |intros e].
    - apply (staged_bind 5 5 5); [lia|apply staged_retry_loop|intros resp].
      apply staged_ret.
    - staged_block 6%nat. }
  staged_block 6%nat.
Qed.

Lemma staged_process next_service env b64_identity account_id batch_data rows :
  staged 1 6 (process thread_name uuid1 FEATURE_LIST RAD_STRATEGY
                inventory_data_to_pandas preprocess IsolationForest predict
                RADIsolationForest fit_predict_contrast send
                next_service env b64_identity account_id batch_data rows).
Proof.
  unfold process.
  apply (staged_bind 1 1 6); [lia|staged_block 1%nat|intros _].
  apply (staged_bind 1 1 6); [lia|staged_block 1%nat|intros trees_factor].
  apply (staged_bind 1 1 6); [lia|staged_block 1%nat|intros sample_factor].
  apply (staged_bind 1 1 6); [lia|staged_block 1%nat|intros _].
  apply (staged_bind 1 2 6); [lia|staged_block 1%nat|intros [num_trees sample_size]].
  apply (staged_bind 2 3 6); [lia| |intros data_frame].
  { apply (staged_weaken 2 2); [lia|lia|]. staged_block 2%nat. }
  apply (staged_bind 3 4 6); [lia| |intros [isolation_forest results]].
  { apply (staged_weaken 3 3); [lia|lia|]. apply staged_run_strategy. }
  apply (staged_bind 4 4 6); [lia|staged_block 4%nat|intros _].
  apply (staged_bind 4 4 6); [lia|staged_block 4%nat|intros ai_service].
  apply (staged_bind 4 5 6); [lia|staged_block 4%nat|intros _].
  apply staged_deliver.
Qed.

Lemma staged_worker job next_service env b64_identity :
  staged 0 6 (the_worker job next_service env b64_identity).
Proof.
  unfold ai_service_worker, worker.
  apply staged_timed; [apply within_silent; reflexivity
                      |apply within_silent; reflexivity|lia|].
  apply (staged_bind 0 0 6); [lia|staged_block 0%nat|intros _].
  apply (staged_bind 0 0 6); [lia|apply staged_validate|intros validated].
  destruct validated as [[[account_id batch_data] rows]|]; [|apply staged_ret].
  apply (staged_weaken 1 6); [lia|lia|]. apply staged_process.
Qed.

Lemma worker_invalid job next_service env b64_identity :
  lacks_required_key job ->
  the_worker job next_service env b64_identity =
  Run [TimerStart "request_time";
       Log DEBUG "%s: Worker started" [VStr thread_name];
       Log ERROR "%s: Invalid Job data, terminated." [VStr thread_name];
       TimerStop "request_time"]
      (OK tt).
Proof.
  intros Hmiss.
  unfold ai_service_worker, worker, validate.
  destruct Hmiss as [Ha|[Hd|(d & Hd & Ht)]].
  - rewrite (subscript_None job "account" Ha). reflexivity.
  - rewrite (subscript_None job "data" Hd).
    destruct (subscript_cases job "account") as [[a ->]| ->]; reflexivity.
  - rewrite (subscript_Some job "data" _ Hd).
    destruct (subscript_cases job "account") as [[a ->]| ->]; [|reflexivity].
    run_lift. rewrite (getitem_None d "total" Ht). reflexivity.
Qed.

(** C6 (amended): a job in which the [account] key is absent, or the
    [data] key is absent, or whose [data] is a dict without the [total]
    key, makes the worker log the failure and return: the tuner and the
    model are not called, no request is sent, no metric other than the
    request timer entered with the worker is updated, and no exception
    escapes. *)
Theorem invalid_job_terminates job next_service env b64_identity :
  lacks_required_key job ->
  let w := the_worker job next_service env b64_identity in
  trace w = [TimerStart "request_time";
             Log DEBUG "%s: Worker started" [VStr thread_name];
             Log ERROR "%s: Invalid Job data, terminated." [VStr thread_name];
             TimerStop "request_time"] /\
  calls_made (trace w) = [] /\
  requests_made (trace w) = 0%nat /\
  metrics_beyond_entry (trace w) = [] /\
  outcome w = OK tt.
Proof.
  intros Hmiss w. subst w. rewrite (worker_invalid _ _ _ _ Hmiss).
  repeat split; reflexivity.
Qed.

Lemma worker_empty job next_service env b64_identity account d rows :
  job !! "account" = Some account ->
  job !! "data" = Some (VDict d) ->
  d !! "total" = Some rows ->
  py_eq_zero rows = true ->
  the_worker job next_service env b64_identity =
  Run [TimerStart "request_time";
       Log DEBUG "%s: Worker started" [VStr thread_name];
       Observe "data_size" rows;
       Log INFO "%s: Job account ID %s: no system in data. Aborting..."
         [VStr thread_name; account];
       TimerStop "request_time"]
      (OK tt).
Proof.
  intros Ha Hd Ht Hz.
  unfold ai_service_worker, worker, validate.
  rewrite (subscript_Some job "account" _ Ha), (subscript_Some job "data" _ Hd).
  run_lift. rewrite (getitem_Some d "total" _ Ht). run_lift.
  rewrite Hz. reflexivity.
Qed.

(** C7: a job whose [data.total] equals zero makes the worker log an
    informational skip and return: the model is not called, no request
    is sent, and no exception escapes. *)
Theorem empty_job_skipped job next_service env b64_identity account d rows :
  job !! "account" = Some account ->
  job !! "data" = Some (VDict d) ->
  d !! "total" = Some rows ->
  py_eq_zero rows = true ->
  let w := the_worker job next_service env b64_identity in
  trace w = [TimerStart "request_time";
             Log DEBUG "%s: Worker started" [VStr thread_name];
             Observe "data_size" rows;
             Log INFO "%s: Job account ID %s: no system in data. Aborting..."
               [VStr thread_name; account];
             TimerStop "request_time"] /\
  calls_made (trace w) = [] /\
  requests_made (trace w) = 0%nat /\
  outcome w = OK tt.
Proof.
  intros Ha Hd Ht Hz w. subst w.
  rewrite (worker_empty _ _ _ _ _ _ _ Ha Hd Ht Hz).
  repeat split; reflexivity.
Qed.

(** *** Delivery and the jobs-published counter *)

#[local] Abbreviation contract := (delivery_contract uuid1 send).




(** The three ways the delivery can end. *)
Lemma deliver_cases next_service b64_identity batch_id output :
  let headers := VDict {[ "x-rh-identity" := b64_identity ]} in
  let R := _retryable thread_name send "post" next_service output headers in
  let D := deliver thread_name send next_service b64_identity batch_id output in
  (exists resp, outcome R = OK resp /\
     D = Run (trace R ++ [Inc "jobs_published";
                          Log DEBUG "%s: Done, exiting" [VStr thread_name]])
             (OK tt)) \/
  (exists msg, outcome R = Raise (HTTPError msg) /\
     D = Run (trace R ++
              [Log ERROR ("%s: Failed to pass data for " +:+ dquote +:+ "%s" +:+ dquote +:+ ": %s")
                 [VStr thread_name; VStr batch_id; VStr msg];
               Inc "jobs_published";
               Log DEBUG "%s: Done, exiting" [VStr thread_name]])
             (OK tt)) \/
  (exists e, outcome R = Raise e /\ is_HTTPError e = false /\
     D = Run (trace R) (Raise e)).
Proof.
  intros headers R D. subst D. unfold deliver. fold headers. fold R.
  destruct (outcome R) as [resp|e] eqn:Ho.
  - left. exists resp. split; [reflexivity|].
    rewrite (bind_known R _ resp Ho).
    rewrite (try_except_OK _ _ _ tt) by reflexivity.
    rewrite prefix_bind. unfold prefix. cbn. reflexivity.
  - rewrite (bind_raised R _ e Ho).
    destruct (is_HTTPError e) eqn:He.
    + right; left. destruct e; try discriminate. exists msg.
      split; [reflexivity|].
      rewrite (try_except_caught _ _ _ (HTTPError msg)) by reflexivity.
      cbn [trace]. rewrite prefix_bind. unfold prefix. cbn. reflexivity.
    + right; right. exists e. split; [reflexivity|]. split; [exact He|].
      rewrite (try_except_uncaught _ _ _ e) by (reflexivity || exact He).
      reflexivity.
Qed.

(** The first event of the delivery is the first request. *)
Lemma deliver_head next_service b64_identity batch_id output :
  exists t,
    trace (deliver thread_name send next_service b64_identity batch_id output)
    = Request 0 "post" next_service output (VDict {[ "x-rh-identity" := b64_identity ]})
      :: t.
Proof.
  destruct (retry_loop_head thread_name send "post" next_service output
              (VDict {[ "x-rh-identity" := b64_identity ]}) 0 [1; 2]%nat)
    as [t Ht].
  destruct (deliver_cases next_service b64_identity batch_id output)
    as [(resp & _ & ->)|[(msg & _ & ->)|(e & _ & _ & ->)]];
    cbn [trace]; unfold _retryable; cbn [seq MAX_RETRIES]; rewrite Ht;
    eexists; reflexivity.
Qed.




(** *** The envelope *)





(** *** A job that goes through *)

(** The trace of a job whose every step up to the delivery succeeds. *)
Lemma worker_success_trace job next_service env b64_identity
    account d rows tf sf n sz df0 df mapping isolation_forest results ai_service :
  job !! "account" = Some account ->
  job !! "data" = Some (VDict d) ->
  d !! "total" = Some rows ->
  py_eq_zero rows = false ->
  env !! "num_trees_factor" = Some tf ->
  env !! "sample_size_factor" = Some sf ->
  isolation_forest_params tf sf rows = OK (n, sz) ->
  inventory_data_to_pandas (VDict d) FEATURE_LIST = OK df0 ->
  preprocess df0 = OK (df, mapping) ->
  outcome (run_strategy RAD_STRATEGY IsolationForest predict RADIsolationForest
             fit_predict_contrast env df n sz) = OK (isolation_forest, results) ->
  env !! "ai_service" = Some ai_service ->
  trace (the_worker job next_service env b64_identity) =
    [TimerStart "request_time";
     Log DEBUG "%s: Worker started" [VStr thread_name];
     Observe "data_size" rows;
     Log INFO "%s: Job account ID %s (batch ID: %s): Started..."
       [VStr thread_name; account; VStr uuid1];
     Call "isolation_forest_params" [tf; sf; rows];
     TimerStart "preparation_time";
     Call "rad.inventory_data_to_pandas" (VDict d :: FEATURE_LIST);
     Call "rad.preprocess" [];
     TimerStop "preparation_time"]
    ++ trace (run_strategy RAD_STRATEGY IsolationForest predict RADIsolationForest
                fit_predict_contrast env df n sz)
    ++ [Log INFO "Analysis have %s rows in scores"
          [VInt (Z.of_nat (length results))];
        Log INFO "%s: Job ID %s: detection done, publishing to %s ..."
          [VStr thread_name; VStr uuid1; VStr next_service]]
    ++ trace (deliver thread_name send next_service b64_identity uuid1
                (build_output FEATURE_LIST uuid1 ai_service account results []))
    ++ [TimerStop "request_time"].
Proof.
  intros Ha Hd Ht Hz Htf Hsf Htune Hpandas Hpre Hdet Hsvc.
  unfold ai_service_worker, worker, validate.
  rewrite (subscript_Some job "account" _ Ha), (subscript_Some job "data" _ Hd).
  run_lift. rewrite (getitem_Some d "total" _ Ht). run_lift. rewrite Hz.
  rewrite (try_except_OK _ _ _ (Some (account, VDict d, rows))) by reflexivity.
  rewrite bind_log_prefix.
  rewrite (bind_known _ _ (Some (account, VDict d, rows))) by reflexivity.
  cbv beta iota. unfold process. cbv zeta.
  rewrite (subscript_Some env "num_trees_factor" _ Htf),
          (subscript_Some env "sample_size_factor" _ Hsf).
  rewrite bind_log_prefix. run_lift. rewrite bind_emit_prefix.
  rewrite Htune. run_lift. cbv iota.
  rewrite Hpandas.
  rewrite (bind_known (timed "preparation_time" _) _ df).
  2:{ cbn. rewrite Hpre. reflexivity. }
  rewrite (bind_known _ _ (isolation_forest, results) Hdet). cbv iota.
  rewrite bind_log_prefix.
  rewrite (subscript_Some env "ai_service" _ Hsvc). run_lift.
  rewrite bind_log_prefix.
  rewrite trace_timed. repeat rewrite trace_prefix.
  cbn [trace timed emit mbind M_bind lift outcome app mret M_ret].
  rewrite Hpre. cbn [trace outcome app].
  repeat rewrite trace_prefix.
  repeat (rewrite <- app_assoc; cbn [app]).
  reflexivity.
Qed.






(** C10: every value of the strategy selector other than exactly
    "scikitlearn", recognized or not, selects the original strategy,
    which reads [min_score] from the environment; the exact value
    "scikitlearn" selects the scikit-learn strategy. *)
Theorem strategy_selection env data_frame num_trees sample_size :
  RAD_STRATEGY <> "scikitlearn" ->
  run_strategy RAD_STRATEGY IsolationForest predict RADIsolationForest
    fit_predict_contrast env data_frame num_trees sample_size
  = (min_score ← lift (subscript env "min_score");
     rad_original IsolationForest predict data_frame num_trees sample_size
       min_score) /\
  run_strategy "scikitlearn" IsolationForest predict RADIsolationForest
    fit_predict_contrast env data_frame num_trees sample_size
  = scikitlearn RADIsolationForest fit_predict_contrast
      data_frame num_trees sample_size.
Proof.
  intros Hne. split; [|reflexivity].
  unfold run_strategy.
  destruct (String.eqb_spec RAD_STRATEGY "scikitlearn") as [Heq|_];
    [contradiction|reflexivity].
Qed.

(** C9 (amended): within every job's execution the stages follow one
    another in the order validate, tune, prepare, detect, package,
    deliver, complete: no event of an earlier stage comes after an event
    of a later one.  In particular the tuner is called before the raw
    data is normalized. *)
Theorem stages_in_code_order job next_service env b64_identity :
  in_order code_rank (trace (the_worker job next_service env b64_identity)) = true.
Proof. apply staged_worker. Qed.

End WorkerProperties.

(** C9, as the specification states it, fails: the worker calls the
    tuner before it prepares the data frame. *)
Lemma stages_spec_order_counterexample :
  let w := demo_worker "scikitlearn" demo_send_ok demo_job "http://next" demo_env VNone in
  stages (trace w) =
    [Validate; Tune; Prepare; Prepare; Prepare; Prepare;
     Detect; Detect; Detect; Detect; Package; Deliver; Complete] /\
  in_order spec_rank (trace w) = false.
Proof. split; vm_compute; reflexivity. Qed.


(** C6, as the specification states it, fails: a job whose [data] is a
    list has no [data.total], and the [TypeError] of the lookup escapes
    the worker. *)
Lemma invalid_job_list_data_counterexample :
  let w := demo_worker "scikitlearn" demo_send_ok demo_job_list_data "http://next"
             demo_env VNone in
  nested_field (VDict demo_job_list_data) "data" "total" = Raise TypeError /\
  outcome w = Raise TypeError /\
  ~ In (Log ERROR "%s: Invalid Job data, terminated." [VStr "Thread-1"]) (trace w).
Proof.
  split; [vm_compute; reflexivity|]. split; [vm_compute; reflexivity|].
  vm_compute. intros [H|[H|[H|[]]]]; discriminate H.
Qed.


Lemma strategy_selection_witness :
  run_strategy "original" demo_IsolationForest demo_predict demo_RADIsolationForest
    demo_fit_predict_contrast demo_env tt 30 30
  = (min_score ← lift (subscript demo_env "min_score");
     rad_original demo_IsolationForest demo_predict tt 30 30 min_score) /\
  run_strategy "scikitlearn" demo_IsolationForest demo_predict demo_RADIsolationForest
    demo_fit_predict_contrast demo_env tt 30 30
  = scikitlearn demo_RADIsolationForest demo_fit_predict_contrast tt 30 30.
Proof.
  apply (strategy_selection "original" demo_IsolationForest demo_predict
           demo_RADIsolationForest demo_fit_predict_contrast demo_env tt 30 30).
  vm_compute. discriminate.
Defined.


Lemma invalid_job_terminates_witness :
  let w := demo_worker "scikitlearn" demo_send_ok demo_job_no_account
             "http://next" demo_env VNone in
  trace w = [TimerStart "request_time";
             Log DEBUG "%s: Worker started" [VStr "Thread-1"];
             Log ERROR "%s: Invalid Job data, terminated." [VStr "Thread-1"];
             TimerStop "request_time"] /\
  calls_made (trace w) = [] /\
  requests_made (trace w) = 0%nat /\
  metrics_beyond_entry (trace w) = [] /\
  outcome w = OK tt.
Proof.
  apply (invalid_job_terminates "Thread-1" "b0a1" demo_FEATURE_LIST "scikitlearn"
           demo_inventory_data_to_pandas demo_preprocess
           demo_IsolationForest demo_predict
           demo_RADIsolationForest demo_fit_predict_contrast
           demo_send_ok demo_job_no_account "http://next" demo_env VNone).
  left. vm_compute. reflexivity.
Defined.

Lemma empty_job_skipped_witness :
  let w := demo_worker "scikitlearn" demo_send_ok demo_job_empty
             "http://next" demo_env VNone in
  trace w = [TimerStart "request_time";
             Log DEBUG "%s: Worker started" [VStr "Thread-1"];
             Observe "data_size" (VInt 0);
             Log INFO "%s: Job account ID %s: no system in data. Aborting..."
               [VStr "Thread-1"; VStr "A1"];
             TimerStop "request_time"] /\
  calls_made (trace w) = [] /\
  requests_made (trace w) = 0%nat /\
  outcome w = OK tt.
Proof.
  apply (empty_job_skipped "Thread-1" "b0a1" demo_FEATURE_LIST "scikitlearn"
           demo_inventory_data_to_pandas demo_preprocess
           demo_IsolationForest demo_predict
           demo_RADIsolationForest demo_fit_predict_contrast
           demo_send_ok demo_job_empty "http://next" demo_env VNone
           (VStr "A1") (list_to_map [("total", VInt 0)]) (VInt 0));
    vm_compute; reflexivity.
Defined.


(** * Further properties *)

(** ** More on the retry executor *)

Section RetryExtras.

Variable thread_name : string.
Variable send : nat -> reply.
Variables (method url : string) (json headers : value).

#[local] Abbreviation loop' := (retry_loop thread_name send method url json headers).
#[local] Abbreviation round := (retry_round thread_name send method url json headers).

Lemma retry_loop_retried attempt range :
  is_retried (send attempt) = true ->
  loop' (attempt :: range) = prefix (round attempt) (loop' range).
Proof.
  intros Hr. cbn [retry_loop]. unfold retry_round.
  destruct (send attempt) as [resp|e]; cbn [is_retried failure_text] in *.
  - cbn -[raise_for_status]. rewrite (raise_for_status_error resp Hr). reflexivity.
  - destruct e; try discriminate; reflexivity.
Qed.

Lemma retry_loop_foreign attempt range e :
  send attempt = Fails e -> is_request_failure e = false ->
  loop' (attempt :: range)
  = Run [Request attempt method url json headers] (Raise e).
Proof.
  intros Hs He. cbn [retry_loop]. rewrite Hs.
  destruct e; try discriminate; reflexivity.
Qed.

Lemma retry_loop_rounds pre rest :
  (forall n, In n pre -> is_retried (send n) = true) ->
  loop' (pre ++ rest) = prefix (flat_map round pre) (loop' rest).
Proof.
  induction pre as [|a pre IH]; intros Hpre.
  - cbn [app flat_map]. unfold prefix. cbn [app]. destruct (loop' rest); reflexivity.
  - cbn [app flat_map].
    rewrite (retry_loop_retried a) by (apply Hpre; left; reflexivity).
    rewrite IH by (intros n Hn; apply Hpre; right; exact Hn).
    unfold prefix. cbn [trace outcome]. rewrite app_assoc. reflexivity.
Qed.

Lemma requests_made_rounds pre :
  requests_made (flat_map round pre) = length pre.
Proof.
  induction pre as [|a pre IH]; [reflexivity|].
  cbn [flat_map]. rewrite requests_made_app, IH. reflexivity.
Qed.

(** An attempt that is not retried ends the loop, with a response or
    with an exception that is not an [HTTPError]. *)
Lemma retry_loop_not_retried attempt range :
  is_retried (send attempt) = false ->
  exists o, loop' (attempt :: range)
            = Run [Request attempt method url json headers] o /\
            forall msg, o <> Raise (HTTPError msg).
Proof.
  intros Hr. destruct (send attempt) as [resp|e] eqn:Hs; cbn [is_retried] in Hr.
  - exists (OK resp). split; [|discriminate].
    apply retry_loop_succeeded; assumption.
  - exists (Raise e). split; [apply retry_loop_foreign; assumption|].
    intros msg Heq. injection Heq as ->. discriminate.
Qed.

Lemma retry_loop_request_count range :
  (requests_made (trace (loop' range)) <= length range)%nat /\
  (range <> [] -> (1 <= requests_made (trace (loop' range)))%nat).
Proof.
  induction range as [|a range [IHle _]]; [split; [reflexivity|congruence]|].
  destruct (is_retried (send a)) eqn:Hr.
  - rewrite (retry_loop_retried a range Hr), trace_prefix, requests_made_app.
    cbn [length]. unfold retry_round at 1 2. unfold requests_made at 1 3.
    cbn [List.filter is_request length]. lia.
  - destruct (retry_loop_not_retried a range Hr) as (o & -> & _).
    cbn. lia.
Qed.

Lemma retry_loop_gives_up range :
  outcome (loop' range) = Raise (HTTPError "All attempts failed") ->
  forall n, In n range -> is_retried (send n) = true.
Proof.
  induction range as [|a range IH]; intros Ho n Hn; [destruct Hn|].
  destruct (is_retried (send a)) eqn:Hr.
  - rewrite (retry_loop_retried a range Hr), outcome_prefix in Ho.
    destruct Hn as [<-|Hn]; [exact Hr|apply IH; assumption].
  - destruct (retry_loop_not_retried a range Hr) as (o & Heq & Hne).
    rewrite Heq in Ho. cbn [outcome] in Ho. destruct (Hne _ Ho).
Qed.

End RetryExtras.

(** X1: for a method that names a verb of the session (for any other
    the lookup of line 37 raises before a request is made), and whatever
    the network does, [_retryable] sends at least one request and never
    more than [MAX_RETRIES]. *)
Theorem retryable_request_bounds
    (thread_name : string) (send : nat -> reply)
    (method url : string) (json headers : value) :
  is_http_verb method = true ->
  let run := _retryable thread_name send method url json headers in
  (1 <= requests_made (trace run) <= MAX_RETRIES)%nat.
Proof.
  intros _ run. subst run. unfold _retryable.
  destruct (retry_loop_request_count thread_name send method url json headers
              (seq 0 MAX_RETRIES)) as [Hle Hge].
  rewrite length_seq in Hle. split; [apply Hge; discriminate|exact Hle].
Qed.

Lemma retryable_request_bounds_witness :
  let run := _retryable "Thread-1" demo_send_500 "post" "http://next" VNone VNone in
  (1 <= requests_made (trace run) <= MAX_RETRIES)%nat.
Proof.
  apply (retryable_request_bounds "Thread-1" demo_send_500 "post" "http://next"
           VNone VNone).
  vm_compute. reflexivity.
Defined.

(** X2: for a method that names a verb of the session, an exception of
    the session that is neither an [HTTPError] nor a [ConnectionError]
    is not retried: raised at the [k]-th attempt, after [k - 1] retried
    ones, each followed by its warning ([retry_round], with the text of
    the error as [str] gives it), it leaves [_retryable] at once, with
    no warning for that attempt. *)
Theorem retryable_foreign_exception
    (thread_name : string) (send : nat -> reply)
    (method url : string) (json headers : value) (k : nat) (e : exn) :
  is_http_verb method = true ->
  (1 <= k <= MAX_RETRIES)%nat ->
  (forall n, (n < k - 1)%nat -> is_retried (send n) = true) ->
  send (k - 1)%nat = Fails e ->
  is_request_failure e = false ->
  let run := _retryable thread_name send method url json headers in
  run = Run (flat_map (retry_round thread_name send method url json headers)
               (seq 0 (k - 1))
             ++ [Request (k - 1) method url json headers])
            (Raise e) /\
  requests_made (trace run) = k.
Proof.
  intros _ Hk Hpre Hs He run. subst run. unfold _retryable.
  replace MAX_RETRIES with ((k - 1) + S (MAX_RETRIES - k))%nat by lia.
  rewrite seq_app. cbn [seq]. rewrite Nat.add_0_l.
  rewrite retry_loop_rounds by (intros n Hn; apply Hpre; apply in_seq in Hn; lia).
  rewrite (retry_loop_foreign thread_name send method url json headers _ _ e Hs He).
  unfold prefix. cbn [trace outcome]. split; [reflexivity|].
  rewrite requests_made_app, requests_made_rounds, length_seq. cbn. lia.
Qed.

Lemma retryable_foreign_exception_witness :
  let send := fun n => if (n <? 1)%nat
                       then Responds (Response 503 "Service Unavailable" "http://next")
                       else Fails (OtherError "ReadTimeout") in
  let run := _retryable "Thread-1" send "post" "http://next" VNone VNone in
  run = Run [Request 0 "post" "http://next" VNone VNone;
             Log WARNING "%s: Request failed (attempt #%d), retrying: %s"
               [VStr "Thread-1"; VInt 0;
                VStr "503 Server Error: Service Unavailable for url: http://next"];
             Request 1 "post" "http://next" VNone VNone]
            (Raise (OtherError "ReadTimeout")) /\
  requests_made (trace run) = 2%nat.
Proof.
  apply (retryable_foreign_exception "Thread-1"
           (fun n => if (n <? 1)%nat
                     then Responds (Response 503 "Service Unavailable" "http://next")
                     else Fails (OtherError "ReadTimeout"))
           "post" "http://next" VNone VNone 2 (OtherError "ReadTimeout")).
  - vm_compute. reflexivity.
  - unfold MAX_RETRIES. lia.
  - intros n Hn. assert (n = 0%nat) as -> by lia. reflexivity.
  - reflexivity.
  - reflexivity.
Defined.

(** X3: [_retryable] gives up, raising [HTTPError('All attempts
    failed')], exactly when each of its [MAX_RETRIES] attempts is
    retried: answered with a 4xx or 5xx status, or ended by an
    [HTTPError] or a [ConnectionError] of the session. *)
Theorem retryable_gives_up_iff
    (thread_name : string) (send : nat -> reply)
    (method url : string) (json headers : value) :
  outcome (_retryable thread_name send method url json headers)
  = Raise (HTTPError "All attempts failed")
  <-> (forall n, (n < MAX_RETRIES)%nat -> is_retried (send n) = true).
Proof.
  unfold _retryable. split.
  - intros Ho n Hn.
    apply (retry_loop_gives_up thread_name send method url json headers _ Ho).
    apply in_seq. lia.
  - intros Hall.
    rewrite <- (app_nil_r (seq 0 MAX_RETRIES)).
    rewrite retry_loop_rounds by (intros n Hn; apply Hall; apply in_seq in Hn; lia).
    reflexivity.
Qed.

(** X4: for a method that names a verb of the session, when every
    attempt is retried the run is three rounds of a request followed at
    once by its warning, which carries the thread name, the attempt's
    index counted from zero and the text of the error: the message that
    [raise_for_status] composed from the status, the reason and the URL
    of the response, or the text of the exception of the session; then
    the loop raises. *)
Theorem retryable_exhausted_trace
    (thread_name : string) (send : nat -> reply)
    (method url : string) (json headers : value) :
  is_http_verb method = true ->
  (forall n, (n < MAX_RETRIES)%nat -> is_retried (send n) = true) ->
  _retryable thread_name send method url json headers =
  Run [Request 0 method url json headers;
       Log WARNING "%s: Request failed (attempt #%d), retrying: %s"
         [VStr thread_name; VInt 0; VStr (failure_text (send 0%nat))];
       Request 1 method url json headers;
       Log WARNING "%s: Request failed (attempt #%d), retrying: %s"
         [VStr thread_name; VInt 1; VStr (failure_text (send 1%nat))];
       Request 2 method url json headers;
       Log WARNING "%s: Request failed (attempt #%d), retrying: %s"
         [VStr thread_name; VInt 2; VStr (failure_text (send 2%nat))]]
      (Raise (HTTPError "All attempts failed")).
Proof.
  intros _ Hall. unfold _retryable.
  rewrite <- (app_nil_r (seq 0 MAX_RETRIES)).
  rewrite retry_loop_rounds by (intros n Hn; apply Hall; apply in_seq in Hn; lia).
  reflexivity.
Qed.

Lemma retryable_exhausted_trace_witness :
  let send := fun n : nat => if (n <? 2)%nat
                             then Fails (ConnectionError "refused")
                             else Responds (Response 404 "Not Found" "http://next") in
  _retryable "Thread-1" send "post" "http://next" VNone VNone =
  Run [Request 0 "post" "http://next" VNone VNone;
       Log WARNING "%s: Request failed (attempt #%d), retrying: %s"
         [VStr "Thread-1"; VInt 0; VStr "refused"];
       Request 1 "post" "http://next" VNone VNone;
       Log WARNING "%s: Request failed (attempt #%d), retrying: %s"
         [VStr "Thread-1"; VInt 1; VStr "refused"];
       Request 2 "post" "http://next" VNone VNone;
       Log WARNING "%s: Request failed (attempt #%d), retrying: %s"
         [VStr "Thread-1"; VInt 2;
          VStr "404 Client Error: Not Found for url: http://next"]]
      (Raise (HTTPError "All attempts failed")).
Proof.
  apply (retryable_exhausted_trace "Thread-1"
           (fun n : nat => if (n <? 2)%nat
                           then Fails (ConnectionError "refused")
                           else Responds (Response 404 "Not Found" "http://next"))
           "post" "http://next" VNone VNone).
  - vm_compute. reflexivity.
  - intros n Hn. unfold MAX_RETRIES in Hn.
    destruct n as [|[|[|n]]]; [reflexivity..|lia].
Defined.

(** ** More on the parameter tuner *)

(** No int lies strictly between 0.001 and 1.0; Python compares an int
    with a float exactly. *)
Lemma strictly_inside_int n : strictly_inside (VInt n) = OK false.
Proof.
  unfold strictly_inside, py_lt. cbn [as_num mbind result_bind num_lt].
  change (Prim2SF 0.001) with (S754_finite false 4611686018427388 (-62)).
  change (Prim2SF 1) with (S754_finite false 4503599627370496 (-52)).
  cbn [sf_compare_Z cond_Zopp].
  change (0 <=? -62) with false. change (0 <=? -52) with false. cbv iota.
  change (- (-62)) with 62. change (- (-52)) with 52.
  destruct (Z.compare_spec (Zpos 4611686018427388) (n * 2 ^ 62)) as [H|H|H];
    try reflexivity.
  destruct (Z.compare_spec (Zpos 4503599627370496) (n * 2 ^ 52)) as [H'|H'|H'];
    try reflexivity.
  exfalso. change (2 ^ 62) with 4611686018427387904 in H.
  change (2 ^ 52) with 4503599627370496 in H'. lia.
Qed.

(** X5: an int factor, whatever its value, is never strictly inside the
    interval, so the tuner scales by 0.2: it returns what it returns
    for the float factor 0.2. *)
Theorem tuner_int_factor (n : Z) (factor data_rows : value) :
  isolation_forest_params (VInt n) factor data_rows
  = isolation_forest_params (VFloat 0.2) factor data_rows /\
  isolation_forest_params factor (VInt n) data_rows
  = isolation_forest_params factor (VFloat 0.2) data_rows.
Proof.
  unfold isolation_forest_params.
  rewrite (strictly_inside_int n), (strictly_inside_float 0.2).
  change (in_open_interval 0.2) with true.
  cbn [mbind result_bind]. split; reflexivity.
Qed.

(** X6: a trees factor or a row count that is not a number (a string,
    [None], a list, a dict) makes the tuner raise [TypeError]. *)
Theorem tuner_type_error (trees_factor sample_factor data_rows : value) :
  as_num trees_factor = Raise TypeError \/ as_num data_rows = Raise TypeError ->
  isolation_forest_params trees_factor sample_factor data_rows = Raise TypeError.
Proof.
  intros H. unfold isolation_forest_params, strictly_inside, py_lt, py_mul.
  cbn [as_num mbind result_bind].
  destruct (as_num trees_factor) as [x|e] eqn:Hx.
  - destruct H as [H|H]; [discriminate|]. cbn [mbind result_bind].
    destruct (num_lt (NFloat 0.001) x); cbn [mbind result_bind];
      [destruct (num_lt x (NFloat 1)); cbn [mbind result_bind]|];
      rewrite H; reflexivity.
  - destruct H as [H|H]; [injection H as ->; reflexivity|].
    destruct trees_factor; try discriminate; injection Hx as <-; reflexivity.
Qed.

Lemma tuner_type_error_witness :
  isolation_forest_params (VStr "0.3") (VFloat 0.3) (VInt 100) = Raise TypeError.
Proof.
  apply (tuner_type_error (VStr "0.3") (VFloat 0.3) (VInt 100)).
  left. reflexivity.
Defined.

(** X7: the two components are computed by one rule, each from its own
    factor: exchanging the factors exchanges the components. *)
Theorem tuner_exchange (trees_factor sample_factor data_rows : value) (a b : Z) :
  isolation_forest_params trees_factor sample_factor data_rows = OK (a, b) ->
  isolation_forest_params sample_factor trees_factor data_rows = OK (b, a).
Proof.
  unfold isolation_forest_params. intros H.
  destruct (strictly_inside trees_factor) as [c1|e1]; [|discriminate].
  cbn [mbind result_bind] in *.
  destruct (if c1 then py_mul data_rows trees_factor
            else py_mul data_rows (VFloat 0.2)) as [p1|e1]; [|discriminate].
  cbn [mbind result_bind] in *.
  destruct (strictly_inside sample_factor) as [c2|e2]; [|discriminate].
  cbn [mbind result_bind] in *.
  destruct (if c2 then py_mul data_rows sample_factor
            else py_mul data_rows (VFloat 0.2)) as [p2|e2]; [|discriminate].
  cbn [mbind result_bind] in *.
  destruct (py_int p1) as [n1|e1]; [|discriminate].
  cbn [mbind result_bind] in *.
  destruct (py_int p2) as [n2|e2]; [|discriminate].
  cbn [mbind result_bind] in *.
  injection H as -> ->. reflexivity.
Qed.

Lemma tuner_exchange_witness :
  isolation_forest_params (VFloat 0.5) (VFloat 0.3) (VInt 100) = OK (50, 30).
Proof.
  apply (tuner_exchange (VFloat 0.3) (VFloat 0.5) (VInt 100) 30 50).
  vm_compute. reflexivity.
Defined.

(** *** The components never exceed the row count *)

Module IEEEBounds.

(** An aligned mantissa is not rounded. *)
Lemma binary_round_aux_exact s m e :
  fexp prec emax (Zdigits2 (Zpos m) + e) = e -> e <= 971 ->
  binary_round_aux prec emax s (Zpos m) e loc_Exact = S754_finite s m e.
Proof.
  intros Hc He. unfold binary_round_aux, shr_fexp.
  rewrite Hc, Z.sub_diag. cbn [shr shr_record_of_loc shr_m loc_of_shr_record
                                round_nearest_even].
  rewrite Hc, Z.sub_diag. cbn [shr shr_record_of_loc shr_m].
  replace (e <=? emax - prec) with true; [reflexivity|].
  symmetry. apply Z.leb_le. change (emax - prec) with 971. exact He.
Qed.

(** An int below 2^53 converts to a float of the same value. *)
Lemma float_of_int_exact z x :
  0 < z < 2 ^ 53 -> float_of_int z = OK x ->
  exists m e, Prim2SF x = S754_finite false m e /\
              bounded prec emax m e = true /\
              e <= 0 /\ Zpos m = z * 2 ^ (- e).
Proof.
  intros [Hz Hmax] Hx. destruct z as [|p|p]; try lia.
  assert (Z.log2 (Zpos p) < 53) as Hlog by (apply Z.log2_lt_pow2; lia).
  pose proof (Z.log2_nonneg (Zpos p)) as Hlog0.
  assert (exists m e, binary_normalize prec emax (Zpos p) 0 false
                      = S754_finite false m e /\
                      fexp prec emax (Zdigits2 (Zpos m) + e) = e /\
                      -52 <= e <= 0 /\ Zpos m = Zpos p * 2 ^ (- e))
    as (m & e & Hn & Hc & He & Hm).
  { cbn [binary_normalize]. unfold binary_round, shl_align.
    change (Zpos (digits2_pos p)) with (Zdigits2 (Zpos p)).
    rewrite IEEE.digits_pos, IEEE.fexp64_eq.
    destruct (Z.max (Z.log2 (Zpos p) + 1 + 0 - 53) (-1074) - 0) as [|d|d] eqn:Hd.
    - assert (fexp prec emax (Zdigits2 (Zpos p) + 0) = 0) as Hc
        by (rewrite IEEE.digits_pos, IEEE.fexp64_eq; lia).
      exists p, 0. split; [apply binary_round_aux_exact; [exact Hc|lia]|].
      split; [exact Hc|]. split; [lia|].
      change (2 ^ (- 0)) with 1. lia.
    - lia.
    - remember (Z.max (Z.log2 (Zpos p) + 1 + 0 - 53) (-1074)) as e eqn:Ee.
      assert (e = - Zpos d) as He by lia.
      assert (Zdigits2 (Zpos (Pos.iter xO p d)) = Z.log2 (Zpos p) + 1 + Zpos d)
        as Hdig.
      { rewrite IEEE.digits_pos, IEEE.iter_xO, Z.log2_mul_pow2 by lia. lia. }
      assert (fexp prec emax (Zdigits2 (Zpos (Pos.iter xO p d)) + e) = e) as Hc
        by (rewrite Hdig, IEEE.fexp64_eq; lia).
      exists (Pos.iter xO p d), e.
      split; [apply binary_round_aux_exact; [exact Hc|lia]|].
      split; [exact Hc|]. split; [lia|].
      rewrite IEEE.iter_xO, He, Z.opp_involutive. reflexivity. }
  unfold float_of_int in Hx. rewrite Hn in Hx. injection Hx as <-.
  assert (bounded prec emax m e = true) as Hb.
  { unfold bounded, canonical_mantissa.
    change (Zpos (digits2_pos m)) with (Zdigits2 (Zpos m)). rewrite Hc.
    rewrite Z.eqb_refl. apply Z.leb_le. change (emax - prec) with 971. lia. }
  exists m, e. split; [|repeat split; [exact Hb|lia|exact Hm]].
  apply (Prim2SF_SF2Prim (S754_finite false m e)). exact Hb.
Qed.

(** Rounding a value below a representable number [mX * 2^eX] gives at
    most that number. *)
Lemma binary_round_aux_below s m e l mX eX m3 e3 :
  0 < m -> -2148 <= e -> e <= eX -> eX <= 971 ->
  fexp prec emax (Zdigits2 (Zpos mX) + eX) = eX ->
  m * 2 ^ (e + 2148) < Zpos mX * 2 ^ (eX + 2148) ->
  binary_round_aux prec emax s m e l = S754_finite s m3 e3 ->
  Zpos m3 * 2 ^ (e3 + 2148) <= Zpos mX * 2 ^ (eX + 2148).
Proof.
  intros Hm He HeX HeX' Hc Hv Hr.
  destruct (IEEE.binary_round_aux_steps s m e l ltac:(lia))
    as (m1 & e1 & m2 & m3' & e2 & H1 & Hr2 & H2 & Hm1 & Hm3 & Heq).
  rewrite Heq in Hr.
  destruct m3' as [|p|p]; try discriminate.
  destruct (e2 <=? emax - prec); try discriminate.
  injection Hr as -> ->.
  rewrite IEEE.digits_pos, IEEE.fexp64_eq in Hc.
  pose proof (Z.log2_nonneg m) as Hl0.
  pose proof (Z.log2_nonneg (Zpos mX)) as HlX0.
  assert (Hlog : Z.log2 m + e <= Z.log2 (Zpos mX) + eX).
  { pose proof (Z.log2_spec m Hm) as [Hlo _].
    pose proof (Z.log2_spec (Zpos mX) ltac:(lia)) as [_ Hhi].
    assert (2 ^ (Z.log2 m + (e + 2148))
            < 2 ^ (Z.succ (Z.log2 (Zpos mX)) + (eX + 2148))) as Hp.
    { rewrite (Z.pow_add_r 2 (Z.log2 m)) by lia.
      rewrite (Z.pow_add_r 2 (Z.succ (Z.log2 (Zpos mX)))) by lia.
      eapply Z.le_lt_trans.
      - apply Z.mul_le_mono_nonneg_r; [apply Z.pow_nonneg; lia|exact Hlo].
      - eapply Z.lt_trans; [exact Hv|].
        apply Z.mul_lt_mono_pos_r; [apply Z.pow_pos_nonneg; lia|exact Hhi]. }
    apply Z.pow_lt_mono_r_iff in Hp; lia. }
  assert (He1 : e <= e1 <= eX /\ m1 * 2 ^ (e1 - e) <= m).
  { cbv zeta in H1. rewrite IEEE.fexp64_eq in H1.
    destruct H1 as [(_ & -> & ->)|(Hn & -> & ->)].
    - rewrite Z.sub_diag. simpl. lia.
    - rewrite IEEE.digits_pos' in * by lia.
      split; [lia|].
      replace (e + _ - e) with (Z.max (Z.log2 m + 1 + e - 53) (-1074) - e) by lia.
      rewrite Z.mul_comm. apply Z.mul_div_le. apply Z.pow_pos_nonneg; lia. }
  destruct He1 as [He1 Hm1v].
  assert (Hm2 : m2 <= Zpos mX * 2 ^ (eX - e1)).
  { assert (m1 * 2 ^ (e1 + 2148)
            < Zpos mX * 2 ^ (eX - e1) * 2 ^ (e1 + 2148)) as Hlt.
    { rewrite <- Z.mul_assoc, <- Z.pow_add_r by lia.
      replace (eX - e1 + (e1 + 2148)) with (eX + 2148) by lia.
      eapply Z.le_lt_trans; [|exact Hv].
      replace (e1 + 2148) with ((e1 - e) + (e + 2148)) by lia.
      rewrite Z.pow_add_r by lia. rewrite Z.mul_assoc.
      apply Z.mul_le_mono_nonneg_r; [apply Z.pow_nonneg; lia|exact Hm1v]. }
    apply Z.mul_lt_mono_pos_r in Hlt; [|apply Z.pow_pos_nonneg; lia].
    lia. }
  assert (H3 : Zpos m3 * 2 ^ (e3 + 2148) <= m2 * 2 ^ (e1 + 2148)).
  { cbv zeta in H2.
    destruct H2 as [(_ & -> & ->)|(Hn & Hp & ->)]; [lia|].
    remember (fexp prec emax (Zdigits2 m2 + e1) - e1) as n eqn:En.
    replace (e1 + n + 2148) with (n + (e1 + 2148)) by lia.
    rewrite Z.pow_add_r, Z.mul_assoc by lia.
    apply Z.mul_le_mono_nonneg_r; [apply Z.pow_nonneg; lia|].
    rewrite Hp, Z.mul_comm. apply Z.mul_div_le. apply Z.pow_pos_nonneg; lia. }
  eapply Z.le_trans; [exact H3|].
  replace (eX + 2148) with ((eX - e1) + (e1 + 2148)) by lia.
  rewrite (Z.pow_add_r 2 (eX - e1)), Z.mul_assoc by lia.
  apply Z.mul_le_mono_nonneg_r; [apply Z.pow_nonneg; lia|exact Hm2].
Qed.

(** Truncation reads the scaled value: [m * 2^e] rounded toward zero. *)
Lemma shiftl_scaled a e :
  0 <= a -> -2148 <= e -> Z.shiftl a e = a * 2 ^ (e + 2148) / 2 ^ 2148.
Proof.
  intros Ha He.
  assert (0 < 2 ^ 2148) as Hk by (apply Z.pow_pos_nonneg; lia).
  destruct (Z.le_gt_cases 0 e) as [Hpos|Hneg].
  - rewrite Z.shiftl_mul_pow2 by lia.
    rewrite Z.pow_add_r, Z.mul_assoc by lia.
    rewrite Z.div_mul by lia. reflexivity.
  - rewrite Z.shiftl_div_pow2 by lia.
    replace 2148 with ((- e) + (e + 2148)) at 2 by lia.
    rewrite (Z.pow_add_r 2 (- e)) by lia.
    rewrite Z.div_mul_cancel_r; [reflexivity| |].
    + apply Z.pow_nonzero; lia.
    + apply Z.pow_nonzero; lia.
Qed.

(** The truncated product of a converted row count with a factor of the
    interval is at most the row count. *)
Lemma product_at_most r x f a :
  0 <= r < 2 ^ 53 -> float_of_int r = OK x -> in_open_interval f = true ->
  py_int (NFloat (x * f)) = OK a -> 0 <= a <= r.
Proof.
  intros [Hr0 Hr] Hx Hf Ha.
  destruct (IEEE.py_int_finite_nonneg (x * f)) as (a' & Ha' & Hpos).
  { apply IEEE.mul_finite_nonneg;
      [eapply IEEE.float_of_int_finite; eauto|exact Hf]. }
  rewrite Ha in Ha'. injection Ha' as <-. split; [exact Hpos|].
  destruct (Z.eq_dec r 0) as [->|Hne].
  { vm_compute in Hx. injection Hx as <-.
    unfold py_int in Ha. rewrite mul_spec in Ha.
    destruct (IEEE.in_open_interval_inv f Hf) as (mf & ef & Ef & _).
    rewrite Ef in Ha. vm_compute in Ha. injection Ha as <-. lia. }
  destruct (float_of_int_exact r x ltac:(lia) Hx)
    as (mx & ex & Ex & Bx & Hex & Hmx).
  destruct (IEEE.in_open_interval_inv f Hf) as (mf & ef & Ef & Hef & Hmf).
  pose proof (IEEE.bounded_inv mx ex Bx) as [Hexb Hmxb].
  assert (Hcan : fexp prec emax (Zdigits2 (Zpos mx) + ex) = ex).
  { unfold bounded, canonical_mantissa in Bx.
    apply andb_prop in Bx as [Hc _]. apply Z.eqb_eq in Hc. exact Hc. }
  unfold py_int in Ha. rewrite mul_spec, Ex, Ef in Ha.
  unfold SF64mul in Ha. cbn [SFmul xorb] in Ha.
  destruct (binary_round_aux prec emax false (Zpos (mx * mf)) (ex + ef) loc_Exact)
    as [s0|s0| |s0 m3 e3] eqn:Hround; cbn [sf_trunc] in Ha; try discriminate.
  { injection Ha as <-. lia. }
  assert (s0 = false) as ->.
  { destruct (IEEE.binary_round_aux_steps false (Zpos (mx * mf)) (ex + ef)
                loc_Exact ltac:(lia))
      as (m1 & e1 & m2 & m3' & e2 & _ & _ & _ & _ & _ & Heq).
    rewrite Heq in Hround. destruct m3'; try discriminate.
    destruct (e2 <=? emax - prec); try discriminate.
    injection Hround as <- _ _. reflexivity. }
  cbn [cond_Zopp] in Ha. injection Ha as <-.
  assert (Hle : Zpos m3 * 2 ^ (e3 + 2148) <= Zpos mx * 2 ^ (ex + 2148)).
  { apply (binary_round_aux_below false (Zpos (mx * mf)) (ex + ef) loc_Exact
             mx ex m3 e3); [lia|lia|lia|lia|exact Hcan| |exact Hround].
    rewrite Pos2Z.inj_mul.
    replace (ex + ef + 2148) with ((ex + 1074) + (ef + 1074)) by lia.
    rewrite Z.pow_add_r by lia.
    replace (ex + 2148) with ((ex + 1074) + 1074) by lia.
    rewrite (Z.pow_add_r 2 (ex + 1074)) by lia.
    assert (0 < 2 ^ (ex + 1074)) by (apply Z.pow_pos_nonneg; lia).
    remember (2 ^ (ex + 1074)) as px. remember (2 ^ (ef + 1074)) as pf.
    remember (2 ^ 1074) as pone.
    assert (0 < Zpos mx * px) by nia.
    nia. }
  assert (He3 : -1074 <= e3).
  { pose proof (Prim2SF_valid (x * f)) as Hv.
    rewrite mul_spec, Ex, Ef in Hv. unfold SF64mul in Hv.
    cbn [SFmul xorb] in Hv. rewrite Hround in Hv.
    apply IEEE.bounded_inv in Hv. lia. }
  rewrite shiftl_scaled by lia.
  assert (r = Z.shiftl (Zpos mx) ex) as Hrx.
  { rewrite Z.shiftl_div_pow2 by lia. rewrite Hmx.
    rewrite Z.div_mul; [reflexivity|]. apply Z.pow_nonzero; lia. }
  rewrite Hrx, (shiftl_scaled (Zpos mx) ex) by lia.
  apply Z.div_le_mono; [apply Z.pow_pos_nonneg; lia|exact Hle].
Qed.

End IEEEBounds.

Lemma component_at_most r x f a :
  0 <= r < 2 ^ 53 -> float_of_int r = OK x ->
  spec_component r f = OK a -> 0 <= a <= r.
Proof.
  intros Hr Hx. unfold spec_component, int_of_product, py_mul. simpl.
  rewrite Hx. simpl.
  destruct (in_open_interval f) eqn:Hf.
  - apply IEEEBounds.product_at_most; assumption.
  - rewrite (IEEE.mul_comm 0.2 x).
    apply IEEEBounds.product_at_most; [assumption|assumption|reflexivity].
Qed.

(** X8: for a row count [r] that a float holds exactly (below 2^53) and
    any two float factors, the tuner returns a pair whose components
    both lie between 0 and [r]: scaling by a factor of the interval, or
    by the fallback 0.2, and truncating never yields more trees or a
    larger sample than there are rows. *)
Theorem tuner_at_most_rows (r : Z) (tf sf : float) :
  0 <= r < 2 ^ 53 ->
  exists a b,
    isolation_forest_params (VFloat tf) (VFloat sf) (VInt r) = OK (a, b) /\
    0 <= a <= r /\ 0 <= b <= r.
Proof.
  intros Hr.
  destruct (IEEE.float_of_int_converts r) as [x Hx].
  { split; [lia|]. destruct Hr as [_ Hr].
    pose proof (Z.pow_pos_nonneg 2 971 ltac:(lia) ltac:(lia)) as Hp.
    remember (2 ^ 971) as big. remember (2 ^ 53) as small.
    assert (2 <= small) by (subst small; apply (Z.pow_le_mono_r 2 1 53); lia).
    nia. }
  destruct (tuner_total r x tf sf ltac:(lia) Hx) as (a & b & Hp & Sa & Sb & _).
  exists a, b. split; [exact Hp|]. split.
  - exact (component_at_most r x tf a Hr Hx Sa).
  - exact (component_at_most r x sf b Hr Hx Sb).
Qed.

Lemma tuner_at_most_rows_witness :
  exists a b,
    isolation_forest_params (VFloat 0.3) (VFloat 0.5) (VInt 100) = OK (a, b) /\
    0 <= a <= 100 /\ 0 <= b <= 100.
Proof. apply (tuner_at_most_rows 100 0.3 0.5). lia. Defined.

(** ** More on the job worker *)

(** *** Timers *)










Section WorkerExtras.

Context {frame forest : Type}.
Variables (thread_name uuid1 : string).
Variables (FEATURE_LIST : list value) (RAD_STRATEGY : string).
Variable inventory_data_to_pandas : value -> list value -> result frame.
Variable preprocess : frame -> result (frame * value).
Variable IsolationForest : frame -> Z -> Z -> result forest.
Variable predict : forest -> frame -> value -> result (list value).
Variable RADIsolationForest : Z -> Z -> result forest.
Variable fit_predict_contrast : forest -> frame -> frame -> result (list value).
Variable send : nat -> reply.

#[local] Abbreviation this_worker :=
  (ai_service_worker thread_name uuid1 FEATURE_LIST RAD_STRATEGY
     inventory_data_to_pandas preprocess IsolationForest predict
     RADIsolationForest fit_predict_contrast send).

#[local] Abbreviation this_process :=
  (process thread_name uuid1 FEATURE_LIST RAD_STRATEGY
     inventory_data_to_pandas preprocess IsolationForest predict
     RADIsolationForest fit_predict_contrast send).

#[local] Abbreviation this_strategy :=
  (run_strategy RAD_STRATEGY IsolationForest predict RADIsolationForest
     fit_predict_contrast).





(** *** What holds of every run *)

(** A property of runs that survives a step which sends nothing and
    counts nothing, survives the request timer, and holds of a return
    and of every delivery, holds of every run of the worker. *)
Lemma worker_lifts (P : M unit -> Prop) job next_service env b64_identity :
  (forall (A : Type) lo (m : M A) (f : A -> M unit),
      staged lo 4 m -> (forall a, P (f a)) -> P (m ≫= f)) ->
  (forall w, P w -> P (timed "request_time" w)) ->
  P (mret tt) ->
  (forall ai_service account_id results,
      P (deliver thread_name send next_service b64_identity uuid1
           (build_output FEATURE_LIST uuid1 ai_service account_id results []))) ->
  P (this_worker job next_service env b64_identity).
Proof.
  intros Hbind Htimed Hret Hdeliver.
  unfold ai_service_worker, worker. apply Htimed.
  apply (Hbind _ 0%nat); [staged_block 0%nat|intros _].
  apply (Hbind _ 0%nat);
    [apply (staged_weaken 0 0); [lia|lia|apply staged_validate]
    |intros validated].
  destruct validated as [[[account_id batch_data] rows]|]; [|exact Hret].
  unfold process.
  apply (Hbind _ 1%nat); [staged_block 1%nat|intros _].
  apply (Hbind _ 1%nat); [staged_block 1%nat|intros trees_factor].
  apply (Hbind _ 1%nat); [staged_block 1%nat|intros sample_factor].
  apply (Hbind _ 1%nat); [staged_block 1%nat|intros _].
  apply (Hbind _ 1%nat); [staged_block 1%nat|intros [num_trees sample_size]].
  apply (Hbind _ 2%nat); [|intros data_frame].
  { apply (staged_weaken 2 2); [lia|lia|]. staged_block 2%nat. }
  apply (Hbind _ 3%nat); [|intros [isolation_forest results]].
  { apply (staged_weaken 3 3); [lia|lia|]. apply staged_run_strategy. }
  apply (Hbind _ 4%nat); [staged_block 4%nat|intros _].
  apply (Hbind _ 4%nat); [staged_block 4%nat|intros ai_service].
  apply (Hbind _ 4%nat); [staged_block 4%nat|intros _].
  apply Hdeliver.
Qed.

Lemma requests_made_timed {A} metric (w : M A) :
  requests_made (trace (timed metric w)) = requests_made (trace w).
Proof.
  rewrite trace_timed.
  change (TimerStart metric :: trace w ++ [TimerStop metric])
    with ([TimerStart metric] ++ trace w ++ [TimerStop metric]).
  rewrite !requests_made_app. cbn. lia.
Qed.

Lemma incremented_timed {A} counter metric (w : M A) :
  incremented counter (trace (timed metric w)) = incremented counter (trace w).
Proof.
  rewrite trace_timed.
  change (TimerStart metric :: trace w ++ [TimerStop metric])
    with ([TimerStart metric] ++ trace w ++ [TimerStop metric]).
  rewrite !incremented_app. cbn. lia.
Qed.

Lemma tallied_bind {A} lo (m : M A) (f : A -> M unit) :
  staged lo 4 m -> (forall a, tallied (f a)) -> tallied (m ≫= f).
Proof.
  intros Hs Hf.
  assert (requests_made (trace m) = 0%nat) as Hr
    by (apply (within_no_request lo 4); [exact Hs|lia]).
  assert (incremented "jobs_published" (trace m) = 0%nat) as Hi
    by (apply (within_no_inc lo 4); [exact Hs|lia]).
  destruct (outcome m) as [a|e] eqn:Ho.
  - rewrite (bind_known m f a Ho). unfold tallied.
    rewrite outcome_prefix, trace_prefix, incremented_app, requests_made_app.
    rewrite Hr, Hi. apply Hf.
  - rewrite (bind_raised m f e Ho). unfold tallied. cbn [trace outcome].
    rewrite Hi. split; [lia|]. split; [discriminate|intros [? _]; discriminate].
Qed.

Lemma tallied_timed metric (w : M unit) : tallied w -> tallied (timed metric w).
Proof.
  unfold tallied.
  rewrite incremented_timed, requests_made_timed, outcome_timed. auto.
Qed.

Lemma tallied_deliver next_service b64_identity batch_id output :
  tallied (deliver thread_name send next_service b64_identity batch_id output).
Proof.
  set (headers := VDict {[ "x-rh-identity" := b64_identity ]}).
  set (R := _retryable thread_name send "post" next_service output headers).
  assert (incremented "jobs_published" (trace R) = 0%nat) as Hinc.
  { apply (within_no_inc 5 5); [apply staged_retry_loop|lia]. }
  assert (0 < requests_made (trace R))%nat as Hreq.
  { destruct (retry_loop_head thread_name send "post" next_service output
                headers 0 [1; 2]%nat) as [t Ht].
    subst R. unfold _retryable. cbn [seq MAX_RETRIES]. rewrite Ht.
    cbn. lia. }
  unfold tallied.
  destruct (deliver_cases thread_name send next_service b64_identity batch_id output)
    as [(resp & Ho & ->)|[(msg & Ho & ->)|(e & Ho & He & ->)]];
    fold headers; fold R; cbn [trace outcome].
  - rewrite incremented_app, requests_made_app, Hinc.
    remember (requests_made (trace R)) as k eqn:Ek. clear Ek. cbn.
    split; [lia|]. split; [intros _; split; [reflexivity|lia]|reflexivity].
  - rewrite incremented_app, requests_made_app, Hinc.
    remember (requests_made (trace R)) as k eqn:Ek. clear Ek. cbn.
    split; [lia|]. split; [intros _; split; [reflexivity|lia]|reflexivity].
  - rewrite Hinc. split; [lia|].
    split; [discriminate|intros [? _]; discriminate].
Qed.

(** X10: in every run of the worker, whatever the job, the environment,
    the library and the network do, the jobs-published counter is
    incremented at most once, and it is incremented exactly when the
    run returns after having sent a request; a run in which an exception
    escapes, and a run that ends before the delivery, count nothing. *)
Theorem published_exactly_when_delivered job next_service env b64_identity :
  let w := this_worker job next_service env b64_identity in
  (incremented "jobs_published" (trace w) <= 1)%nat /\
  (incremented "jobs_published" (trace w) = 1%nat <->
   outcome w = OK tt /\ (0 < requests_made (trace w))%nat).
Proof.
  apply (worker_lifts tallied).
  - intros A lo m f. apply tallied_bind.
  - intros w. apply tallied_timed.
  - split; [cbn; lia|]. split; [discriminate|intros [_ H]; cbn in H; lia].
  - intros ai_service account_id results. apply tallied_deliver.
Qed.

(** *** The requests of a run *)

Lemma retry_loop_requests method url json headers range
    attempt method' url' json' headers' :
  In (Request attempt method' url' json' headers')
     (trace (retry_loop thread_name send method url json headers range)) ->
  In attempt range /\
  method' = method /\ url' = url /\ json' = json /\ headers' = headers.
Proof.
  induction range as [|a range IH]; [intros []|].
  destruct (retry_loop_step thread_name send method url json headers a range)
    as [(msg & ->)|[(resp & ->)|(e & _ & _ & ->)]]; cbn [trace prefix app];
    intros [Heq|Hin].
  - injection Heq as <- <- <- <- <-. repeat split; left; reflexivity.
  - destruct Hin as [Heq|Hin]; [discriminate|].
    destruct (IH Hin) as (Ha & Hrest). split; [right; exact Ha|exact Hrest].
  - injection Heq as <- <- <- <- <-. repeat split; left; reflexivity.
  - destruct Hin.
  - injection Heq as <- <- <- <- <-. repeat split; left; reflexivity.
  - destruct Hin.
Qed.

Lemma deliver_requests_are next_service b64_identity batch_id output :
  requests_are "post" next_service output
    (VDict {[ "x-rh-identity" := b64_identity ]})
    (trace (deliver thread_name send next_service b64_identity batch_id output)).
Proof.
  set (headers := VDict {[ "x-rh-identity" := b64_identity ]}).
  assert (requests_are "post" next_service output headers
            (trace (_retryable thread_name send "post" next_service output headers)))
    as HR.
  { intros a m u j h Hin.
    apply retry_loop_requests in Hin as (Ha & Hrest).
    split; [|exact Hrest]. apply in_seq in Ha. lia. }
  destruct (deliver_cases thread_name send next_service b64_identity batch_id output)
    as [(resp & _ & ->)|[(msg & _ & ->)|(e & _ & _ & ->)]];
    fold headers; cbn [trace]; intros a m u j h Hin.
  - apply in_app_or in Hin as [Hin|[Hin|[Hin|[]]]];
      [exact (HR a m u j h Hin)|discriminate..].
  - apply in_app_or in Hin as [Hin|[Hin|[Hin|[Hin|[]]]]];
      [exact (HR a m u j h Hin)|discriminate..].
  - exact (HR a m u j h Hin).
Qed.

Lemma requests_are_quiet method url json headers lo t :
  within lo 4 t -> requests_are method url json headers t.
Proof.
  intros Hw a m u j h Hin.
  pose proof (within_In lo 4 t _ Deliver Hw Hin eq_refl) as Hrank.
  cbn [code_rank] in Hrank. lia.
Qed.

Lemma requests_are_app method url json headers t1 t2 :
  requests_are method url json headers t1 ->
  requests_are method url json headers t2 ->
  requests_are method url json headers (t1 ++ t2).
Proof.
  intros H1 H2 a m u j h Hin.
  apply in_app_or in Hin as [Hin|Hin]; [exact (H1 a m u j h Hin)|exact (H2 a m u j h Hin)].
Qed.

Lemma enveloped_bind {A} next_service b64_identity lo (m : M A) (f : A -> M unit) :
  staged lo 4 m -> (forall a, enveloped FEATURE_LIST uuid1 next_service b64_identity (f a)) ->
  enveloped FEATURE_LIST uuid1 next_service b64_identity (m ≫= f).
Proof.
  intros Hs Hf. destruct (outcome m) as [a|e] eqn:Ho.
  - rewrite (bind_known m f a Ho).
    destruct (Hf a) as (ai_service & account_id & results & Hreq).
    exists ai_service, account_id, results. rewrite trace_prefix.
    apply requests_are_app; [apply (requests_are_quiet _ _ _ _ lo); exact Hs|exact Hreq].
  - rewrite (bind_raised m f e Ho). exists VNone, VNone, []. cbn [trace].
    apply (requests_are_quiet _ _ _ _ lo). exact Hs.
Qed.

Lemma enveloped_timed next_service b64_identity metric (w : M unit) :
  enveloped FEATURE_LIST uuid1 next_service b64_identity w ->
  enveloped FEATURE_LIST uuid1 next_service b64_identity (timed metric w).
Proof.
  intros (ai_service & account_id & results & Hreq).
  exists ai_service, account_id, results. rewrite trace_timed.
  intros a m u j h [Heq|Hin]; [discriminate|].
  apply in_app_or in Hin as [Hin|[Heq|[]]]; [|discriminate].
  exact (Hreq a m u j h Hin).
Qed.

(** X11: in every run of the worker, every request sent is a POST to the
    next service that carries the identity header and one and the same
    envelope, built by the worker under the batch id of the run: a retry
    resends the payload of the first attempt, and no request is numbered
    [MAX_RETRIES] or above. *)
Theorem requests_post_one_envelope job next_service env b64_identity :
  exists ai_service account_id results,
    requests_are "post" next_service
      (build_output FEATURE_LIST uuid1 ai_service account_id results [])
      (VDict {[ "x-rh-identity" := b64_identity ]})
      (trace (this_worker job next_service env b64_identity)).
Proof.
  apply (worker_lifts (enveloped FEATURE_LIST uuid1 next_service b64_identity)).
  - intros A lo m f. apply enveloped_bind.
  - intros w. apply enveloped_timed.
  - exists VNone, VNone, []. intros a m u j h [].
  - intros ai_service account_id results.
    exists ai_service, account_id, results. apply deliver_requests_are.
Qed.

(** *** What a request presupposes *)

Lemma requests_bind_inv {A} lo (m : M A) (f : A -> M unit) :
  staged lo 4 m -> (0 < requests_made (trace (m ≫= f)))%nat ->
  exists a, outcome m = OK a /\ (0 < requests_made (trace (f a)))%nat.
Proof.
  intros Hs Hreq.
  assert (requests_made (trace m) = 0%nat) as Hr
    by (apply (within_no_request lo 4); [exact Hs|lia]).
  destruct (outcome m) as [a|e] eqn:Ho.
  - rewrite (bind_known m f a Ho), trace_prefix, requests_made_app, Hr in Hreq.
    exists a. split; [reflexivity|exact Hreq].
  - rewrite (bind_raised m f e Ho) in Hreq. cbn [trace] in Hreq. lia.
Qed.

Lemma subscript_OK_inv (d : gmap string value) key v :
  subscript d key = OK v -> d !! key = Some v.
Proof.
  unfold subscript, getitem. destruct (d !! key) as [v'|]; [|discriminate].
  intros H. injection H as ->. reflexivity.
Qed.

(** The validation lets through the jobs that have an account and a
    dict of data with a row count other than zero. *)
Lemma validate_inv job account_id batch_data rows :
  outcome (validate thread_name job) = OK (Some (account_id, batch_data, rows)) ->
  exists d,
    job !! "account" = Some account_id /\ job !! "data" = Some (VDict d) /\
    batch_data = VDict d /\ d !! "total" = Some rows /\
    py_eq_zero rows = false.
Proof.
  unfold validate.
  destruct (job !! "account") as [a|] eqn:Ha.
  2:{ rewrite (subscript_None job "account" Ha). discriminate. }
  rewrite (subscript_Some job "account" a Ha). run_lift.
  destruct (job !! "data") as [b|] eqn:Hb.
  2:{ rewrite (subscript_None job "data" Hb). discriminate. }
  rewrite (subscript_Some job "data" b Hb). run_lift.
  destruct b as [| | | | | |d];
    try (cbn [getitem]; unfold try_except; cbn; discriminate).
  destruct (d !! "total") as [r|] eqn:Hr.
  2:{ rewrite (getitem_None d "total" Hr). discriminate. }
  rewrite (getitem_Some d "total" r Hr). run_lift.
  destruct (py_eq_zero r) eqn:Hz; [discriminate|].
  intros H. cbn in H. injection H as <- <- <-.
  exists d. repeat split; assumption || reflexivity.
Qed.

Lemma preparation_inv batch_data df :
  outcome
    (timed "preparation_time"
       (emit (Call "rad.inventory_data_to_pandas" (batch_data :: FEATURE_LIST));;
        data_frame ← lift (inventory_data_to_pandas batch_data FEATURE_LIST);
        emit (Call "rad.preprocess" []);;
        '(data_frame, _mapping) ← lift (preprocess data_frame);
        mret data_frame)) = OK df ->
  exists df0 mapping,
    inventory_data_to_pandas batch_data FEATURE_LIST = OK df0 /\
    preprocess df0 = OK (df, mapping).
Proof.
  rewrite outcome_timed.
  destruct (inventory_data_to_pandas batch_data FEATURE_LIST) as [df0|e];
    [|discriminate].
  destruct (preprocess df0) as [[df' mapping]|e] eqn:Hp; cbn; rewrite Hp; cbn;
    [|discriminate].
  intros H. injection H as <-. exists df0, mapping. split; [reflexivity|exact Hp].
Qed.

(** X12: a run of the worker that sends a request has gone through
    every stage before the delivery: the job has an account and a dict
    of data with a row count other than zero, the environment holds both
    factors and the service name, and the tuner, the preparation and the
    detection returned; the first request then carries the envelope made
    of the batch id, the service name, the account and the results of
    that detection.  No job that fails earlier reaches the network. *)
Theorem request_only_after_detection job next_service env b64_identity :
  let w := this_worker job next_service env b64_identity in
  (0 < requests_made (trace w))%nat ->
  exists account d rows tf sf n sz df0 df mapping isolation_forest results
         ai_service,
    job !! "account" = Some account /\
    job !! "data" = Some (VDict d) /\
    d !! "total" = Some rows /\
    py_eq_zero rows = false /\
    env !! "num_trees_factor" = Some tf /\
    env !! "sample_size_factor" = Some sf /\
    isolation_forest_params tf sf rows = OK (n, sz) /\
    inventory_data_to_pandas (VDict d) FEATURE_LIST = OK df0 /\
    preprocess df0 = OK (df, mapping) /\
    outcome (this_strategy env df n sz) = OK (isolation_forest, results) /\
    env !! "ai_service" = Some ai_service /\
    In (Request 0 "post" next_service
          (build_output FEATURE_LIST uuid1 ai_service account results [])
          (VDict {[ "x-rh-identity" := b64_identity ]}))
       (trace w).
Proof.
  intros w Hreq. subst w.
  pose proof Hreq as Hreq0.
  unfold ai_service_worker, worker in Hreq. rewrite requests_made_timed in Hreq.
  apply (requests_bind_inv 0) in Hreq as (_ & _ & Hreq); [|staged_block 0%nat].
  apply (requests_bind_inv 0) in Hreq as (validated & Hv & Hreq);
    [|apply (staged_weaken 0 0); [lia|lia|apply staged_validate]].
  destruct validated as [[[account batch_data] rows]|]; [|cbn in Hreq; lia].
  apply validate_inv in Hv as (d & Ha & Hd & -> & Ht & Hz).
  unfold process in Hreq.
  apply (requests_bind_inv 1) in Hreq as (_ & _ & Hreq); [|staged_block 1%nat].
  apply (requests_bind_inv 1) in Hreq as (tf & Htf & Hreq); [|staged_block 1%nat].
  apply (requests_bind_inv 1) in Hreq as (sf & Hsf & Hreq); [|staged_block 1%nat].
  apply (requests_bind_inv 1) in Hreq as (_ & _ & Hreq); [|staged_block 1%nat].
  apply (requests_bind_inv 1) in Hreq as ([n sz] & Htune & Hreq);
    [|staged_block 1%nat].
  apply (requests_bind_inv 2) in Hreq as (df & Hprep & Hreq);
    [|apply (staged_weaken 2 2); [lia|lia|]; staged_block 2%nat].
  apply (requests_bind_inv 3) in Hreq as ([isolation_forest results] & Hdet & Hreq);
    [|apply (staged_weaken 3 3); [lia|lia|]; apply staged_run_strategy].
  apply (requests_bind_inv 4) in Hreq as (_ & _ & Hreq); [|staged_block 4%nat].
  apply (requests_bind_inv 4) in Hreq as (ai_service & Hsvc & Hreq);
    [|staged_block 4%nat].
  clear Hreq.
  cbn [outcome lift] in Htf, Hsf, Htune, Hsvc.
  apply subscript_OK_inv in Htf, Hsf, Hsvc.
  apply preparation_inv in Hprep as (df0 & mapping & Hpandas & Hpre).
  exists account, d, rows, tf, sf, n, sz, df0, df, mapping, isolation_forest,
    results, ai_service.
  repeat (split; [assumption|]).
  rewrite (worker_success_trace thread_name uuid1 FEATURE_LIST RAD_STRATEGY
             inventory_data_to_pandas preprocess IsolationForest predict
             RADIsolationForest fit_predict_contrast send
             job next_service env b64_identity
             _ _ _ _ _ _ _ _ _ _ _ _ _
             Ha Hd Ht Hz Htf Hsf Htune Hpandas Hpre Hdet Hsvc).
  destruct (deliver_head thread_name send next_service b64_identity uuid1
              (build_output FEATURE_LIST uuid1 ai_service account results []))
    as [t Hhead].
  do 2 (apply in_or_app; right). apply in_or_app. right.
  apply in_or_app. left. rewrite Hhead. left. reflexivity.
Qed.

(** *** Exceptions that escape the worker *)

(** The worker up to the end of the validation, for a job that passes. *)
Lemma worker_validated job next_service env b64_identity account d rows :
  job !! "account" = Some account ->
  job !! "data" = Some (VDict d) ->
  d !! "total" = Some rows ->
  py_eq_zero rows = false ->
  this_worker job next_service env b64_identity =
  timed "request_time"
    (prefix [Log DEBUG "%s: Worker started" [VStr thread_name];
             Observe "data_size" rows]
       (this_process next_service env b64_identity account (VDict d) rows)).
Proof.
  intros Ha Hd Ht Hz.
  unfold ai_service_worker, worker, validate.
  rewrite (subscript_Some job "account" _ Ha), (subscript_Some job "data" _ Hd).
  run_lift. rewrite (getitem_Some d "total" _ Ht). run_lift. rewrite Hz.
  rewrite (try_except_OK _ _ _ (Some (account, VDict d, rows))) by reflexivity.
  rewrite bind_log_prefix.
  rewrite (bind_known _ _ (Some (account, VDict d, rows))) by reflexivity.
  cbv beta iota. unfold prefix. cbn [trace outcome app emit observe mbind M_bind
                                      mret M_ret].
  reflexivity.
Qed.

(** X13: for a job that passes the validation, an environment without
    one of the two tuner factors makes a [KeyError] escape the worker:
    the handler of the validation does not cover the lookup, the record
    of an invalid job is not written, the tuner and the library are not
    called, and only the request timer is stopped on the way out. *)
Theorem missing_factor_escapes job next_service env b64_identity account d rows :
  job !! "account" = Some account ->
  job !! "data" = Some (VDict d) ->
  d !! "total" = Some rows ->
  py_eq_zero rows = false ->
  env !! "num_trees_factor" = None \/ env !! "sample_size_factor" = None ->
  exists key,
    (key = "num_trees_factor" \/ key = "sample_size_factor") /\
    env !! key = None /\
    this_worker job next_service env b64_identity =
    Run [TimerStart "request_time";
         Log DEBUG "%s: Worker started" [VStr thread_name];
         Observe "data_size" rows;
         Log INFO "%s: Job account ID %s (batch ID: %s): Started..."
           [VStr thread_name; account; VStr uuid1];
         TimerStop "request_time"]
        (Raise (KeyError key)).
Proof.
  intros Ha Hd Ht Hz Hmiss.
  rewrite (worker_validated job next_service env b64_identity account d rows
             Ha Hd Ht Hz).
  unfold process. cbv zeta. rewrite bind_log_prefix.
  destruct (env !! "num_trees_factor") as [tf|] eqn:Htf.
  - destruct Hmiss as [Hmiss|Hsf]; [discriminate|].
    exists "sample_size_factor". split; [right; reflexivity|]. split; [exact Hsf|].
    rewrite (subscript_Some env "num_trees_factor" tf Htf). run_lift.
    rewrite (subscript_None env "sample_size_factor" Hsf). reflexivity.
  - exists "num_trees_factor". split; [left; reflexivity|]. split; [exact Htf|].
    rewrite (subscript_None env "num_trees_factor" Htf). reflexivity.
Qed.

(** X14: a job whose [data] is present but is not a dict makes a
    [TypeError] escape the worker at the lookup of the row count: the
    validation catches a [KeyError] only, so the job is not reported as
    invalid, no size is observed, and nothing but the request timer is
    updated. *)
Theorem non_dict_data_escapes job next_service env b64_identity account batch_data :
  job !! "account" = Some account ->
  job !! "data" = Some batch_data ->
  (forall d, batch_data <> VDict d) ->
  ai_service_worker thread_name uuid1 FEATURE_LIST RAD_STRATEGY
    inventory_data_to_pandas preprocess IsolationForest predict
    RADIsolationForest fit_predict_contrast send
    job next_service env b64_identity =
  Run [TimerStart "request_time";
       Log DEBUG "%s: Worker started" [VStr thread_name];
       TimerStop "request_time"]
      (Raise TypeError).
Proof.
  intros Ha Hd Hnd.
  unfold ai_service_worker, worker, validate.
  rewrite (subscript_Some job "account" _ Ha), (subscript_Some job "data" _ Hd).
  run_lift.
  destruct batch_data as [| | | | | |d]; try reflexivity.
  destruct (Hnd d eq_refl).
Qed.

(** X15: the service name is read from the environment after the
    detection: when it is missing, for a job whose earlier stages all
    succeed, the tuner, the preparation and the detection have run by
    the time the [KeyError] escapes the worker, and no request is sent
    and the job is not counted as published. *)
Theorem missing_service_name_escapes job next_service env b64_identity
    account d rows tf sf n sz df0 df mapping isolation_forest results :
  job !! "account" = Some account ->
  job !! "data" = Some (VDict d) ->
  d !! "total" = Some rows ->
  py_eq_zero rows = false ->
  env !! "num_trees_factor" = Some tf ->
  env !! "sample_size_factor" = Some sf ->
  isolation_forest_params tf sf rows = OK (n, sz) ->
  inventory_data_to_pandas (VDict d) FEATURE_LIST = OK df0 ->
  preprocess df0 = OK (df, mapping) ->
  outcome (this_strategy env df n sz) = OK (isolation_forest, results) ->
  env !! "ai_service" = None ->
  let w := this_worker job next_service env b64_identity in
  w = Run ([TimerStart "request_time";
            Log DEBUG "%s: Worker started" [VStr thread_name];
            Observe "data_size" rows;
            Log INFO "%s: Job account ID %s (batch ID: %s): Started..."
              [VStr thread_name; account; VStr uuid1];
            Call "isolation_forest_params" [tf; sf; rows];
            TimerStart "preparation_time";
            Call "rad.inventory_data_to_pandas" (VDict d :: FEATURE_LIST);
            Call "rad.preprocess" [];
            TimerStop "preparation_time"]
           ++ trace (this_strategy env df n sz)
           ++ [Log INFO "Analysis have %s rows in scores"
                 [VInt (Z.of_nat (length results))];
               TimerStop "request_time"])
          (Raise (KeyError "ai_service")) /\
  requests_made (trace w) = 0%nat /\
  incremented "jobs_published" (trace w) = 0%nat.
Proof.
  intros Ha Hd Ht Hz Htf Hsf Htune Hpandas Hpre Hdet Hsvc w.
  assert (w = Run ([TimerStart "request_time";
            Log DEBUG "%s: Worker started" [VStr thread_name];
            Observe "data_size" rows;
            Log INFO "%s: Job account ID %s (batch ID: %s): Started..."
              [VStr thread_name; account; VStr uuid1];
            Call "isolation_forest_params" [tf; sf; rows];
            TimerStart "preparation_time";
            Call "rad.inventory_data_to_pandas" (VDict d :: FEATURE_LIST);
            Call "rad.preprocess" [];
            TimerStop "preparation_time"]
           ++ trace (this_strategy env df n sz)
           ++ [Log INFO "Analysis have %s rows in scores"
                 [VInt (Z.of_nat (length results))];
               TimerStop "request_time"])
          (Raise (KeyError "ai_service"))) as Hw.
  { subst w.
    rewrite (worker_validated job next_service env b64_identity account d rows
               Ha Hd Ht Hz).
    unfold process. cbv zeta.
    rewrite (subscript_Some env "num_trees_factor" _ Htf),
            (subscript_Some env "sample_size_factor" _ Hsf).
    rewrite bind_log_prefix. run_lift. rewrite bind_emit_prefix.
    rewrite Htune. run_lift. cbv iota.
    rewrite Hpandas.
    rewrite (bind_known (timed "preparation_time" _) _ df).
    2:{ cbn. rewrite Hpre. reflexivity. }
    rewrite (bind_known _ _ (isolation_forest, results) Hdet). cbv iota.
    rewrite bind_log_prefix.
    rewrite (subscript_None env "ai_service" Hsvc).
    unfold timed, prefix.
    cbn [trace timed emit mbind M_bind lift outcome app mret M_ret].
    rewrite Hpre. cbn [trace outcome app].
    repeat (rewrite <- app_assoc; cbn [app]).
    reflexivity. }
  split; [exact Hw|].
  assert (within 3 3 (trace (this_strategy env df n sz))) as Hs
    by apply staged_run_strategy.
  rewrite Hw. cbn [trace].
  rewrite !requests_made_app, !incremented_app.
  rewrite (within_no_request 3 3 _ Hs) by lia.
  rewrite (within_no_inc 3 3 _ "jobs_published" Hs) by lia.
  split; reflexivity.
Qed.

(** *** Exceptions of the network *)

Lemma retry_loop_raises method url json headers range e :
  outcome (retry_loop thread_name send method url json headers range) = Raise e ->
  e = HTTPError "All attempts failed" \/
  exists attempt,
    In attempt range /\ send attempt = Fails e /\ is_request_failure e = false.
Proof.
  induction range as [|a range IH].
  - intros H. injection H as <-. left. reflexivity.
  - destruct (retry_loop_step thread_name send method url json headers a range)
      as [(msg & ->)|[(resp & ->)|(e' & Hs & He & ->)]].
    + rewrite outcome_prefix. intros H.
      destruct (IH H) as [->|(n & Hn & Hsn & Hen)]; [left; reflexivity|].
      right. exists n. split; [right; exact Hn|]. split; assumption.
    + discriminate.
    + intros H. injection H as <-. right. exists a.
      split; [left; reflexivity|]. split; assumption.
Qed.

Lemma deliver_raises next_service b64_identity batch_id output e :
  outcome (deliver thread_name send next_service b64_identity batch_id output)
  = Raise e ->
  exists attempt,
    (attempt < MAX_RETRIES)%nat /\ send attempt = Fails e /\
    is_request_failure e = false.
Proof.
  destruct (deliver_cases thread_name send next_service b64_identity batch_id output)
    as [(resp & _ & ->)|[(msg & _ & ->)|(e' & Ho & He & ->)]];
    cbn [outcome]; try discriminate.
  intros H. injection H as <-.
  apply retry_loop_raises in Ho as [->|(n & Hn & Hs & Hf)]; [discriminate|].
  exists n. apply in_seq in Hn. split; [lia|]. split; assumption.
Qed.

(** X16: when an exception escapes a run of the worker that has sent a
    request, it is an exception that the session raised on one of the
    attempts and that is neither an [HTTPError] nor a [ConnectionError]:
    an error status, a connection failure and the exhaustion of the
    retries never escape the worker. *)
Theorem escape_after_request_is_foreign job next_service env b64_identity e :
  let w := this_worker job next_service env b64_identity in
  outcome w = Raise e -> (0 < requests_made (trace w))%nat ->
  exists attempt,
    (attempt < MAX_RETRIES)%nat /\ send attempt = Fails e /\
    is_request_failure e = false.
Proof.
  cbv zeta.
  apply (worker_lifts
           (fun w => outcome w = Raise e -> (0 < requests_made (trace w))%nat ->
                     exists attempt,
                       (attempt < MAX_RETRIES)%nat /\ send attempt = Fails e /\
                       is_request_failure e = false)).
  - intros A lo m f Hs Hf Ho Hreq.
    destruct (requests_bind_inv lo m f Hs Hreq) as (a & Ha & Hreq').
    rewrite (bind_known m f a Ha), outcome_prefix in Ho.
    exact (Hf a Ho Hreq').
  - intros w Hw Ho Hreq. rewrite outcome_timed in Ho.
    rewrite requests_made_timed in Hreq. exact (Hw Ho Hreq).
  - discriminate.
  - intros ai_service account_id results Ho _.
    exact (deliver_raises _ _ _ _ e Ho).
Qed.

(** *** The two strategies *)

Lemma rad_original_returns data_frame n sz min_score isolation_forest results :
  (outcome (rad_original IsolationForest predict data_frame n sz min_score)
   = OK (isolation_forest, results) <->
   IsolationForest data_frame n sz = OK isolation_forest /\
   predict isolation_forest data_frame min_score = OK results) /\
  (In (Call "predict" [min_score])
      (trace (rad_original IsolationForest predict data_frame n sz min_score)) <->
   exists built, IsolationForest data_frame n sz = OK built).
Proof.
  unfold rad_original. rewrite outcome_timed, trace_timed.
  destruct (IsolationForest data_frame n sz) as [f|e]; cbn.
  - split.
    + destruct (predict f data_frame min_score) as [r|e] eqn:Hp; cbn; split.
      * intros H. injection H as <- <-. split; [reflexivity|exact Hp].
      * intros [H1 H2]. injection H1 as <-. rewrite Hp in H2.
        injection H2 as <-. reflexivity.
      * discriminate.
      * intros [H1 H2]. injection H1 as <-. rewrite Hp in H2. discriminate.
    + split; [intros _; exists f; reflexivity|intros _].
      destruct (predict f data_frame min_score); cbn;
        right; right; left; reflexivity.
  - split; split.
    + discriminate.
    + intros [H _]. discriminate.
    + intros [H|[H|[H|[]]]]; discriminate.
    + intros [built H]. discriminate.
Qed.

Lemma scikitlearn_returns data_frame n sz isolation_forest results :
  (outcome (scikitlearn RADIsolationForest fit_predict_contrast data_frame n sz)
   = OK (isolation_forest, results) <->
   RADIsolationForest n sz = OK isolation_forest /\
   fit_predict_contrast isolation_forest data_frame data_frame = OK results) /\
  (In (Call "fit_predict_contrast" [])
      (trace (scikitlearn RADIsolationForest fit_predict_contrast data_frame n sz)) <->
   exists built, RADIsolationForest n sz = OK built).
Proof.
  unfold scikitlearn. rewrite outcome_timed, trace_timed.
  destruct (RADIsolationForest n sz) as [f|e]; cbn.
  - split.
    + destruct (fit_predict_contrast f data_frame data_frame) as [r|e] eqn:Hp;
        cbn; split.
      * intros H. injection H as <- <-. split; [reflexivity|exact Hp].
      * intros [H1 H2]. injection H1 as <-. rewrite Hp in H2.
        injection H2 as <-. reflexivity.
      * discriminate.
      * intros [H1 H2]. injection H1 as <-. rewrite Hp in H2. discriminate.
    + split; [intros _; exists f; reflexivity|intros _].
      destruct (fit_predict_contrast f data_frame data_frame); cbn;
        right; right; left; reflexivity.
  - split; split.
    + discriminate.
    + intros [H _]. discriminate.
    + intros [H|[H|[H|[]]]]; discriminate.
    + intros [built H]. discriminate.
Qed.

(** X17: each strategy returns the forest it built with the results
    that forest gave exactly when both the construction and the
    prediction return, and it asks for the prediction exactly when the
    construction returned; the original strategy passes [min_score] on
    to the prediction. *)
Theorem strategies_predict_after_construction data_frame n sz min_score
    isolation_forest results :
  (outcome (rad_original IsolationForest predict data_frame n sz min_score)
   = OK (isolation_forest, results) <->
   IsolationForest data_frame n sz = OK isolation_forest /\
   predict isolation_forest data_frame min_score = OK results) /\
  (In (Call "predict" [min_score])
      (trace (rad_original IsolationForest predict data_frame n sz min_score)) <->
   exists built, IsolationForest data_frame n sz = OK built) /\
  (outcome (scikitlearn RADIsolationForest fit_predict_contrast data_frame n sz)
   = OK (isolation_forest, results) <->
   RADIsolationForest n sz = OK isolation_forest /\
   fit_predict_contrast isolation_forest data_frame data_frame = OK results) /\
  (In (Call "fit_predict_contrast" [])
      (trace (scikitlearn RADIsolationForest fit_predict_contrast data_frame n sz)) <->
   exists built, RADIsolationForest n sz = OK built).
Proof.
  destruct (rad_original_returns data_frame n sz min_score isolation_forest results)
    as [H1 H2].
  destruct (scikitlearn_returns data_frame n sz isolation_forest results)
    as [H3 H4].
  split; [exact H1|]. split; [exact H2|]. split; [exact H3|exact H4].
Qed.

End WorkerExtras.

(** *** The further properties at work on the concrete process *)

Lemma request_only_after_detection_witness :
  let w := demo_worker "scikitlearn" demo_send_ok demo_job "http://next" demo_env VNone in
  exists account d rows tf sf n sz df0 df mapping isolation_forest results
         ai_service,
    demo_job !! "account" = Some account /\
    demo_job !! "data" = Some (VDict d) /\
    d !! "total" = Some rows /\
    py_eq_zero rows = false /\
    demo_env !! "num_trees_factor" = Some tf /\
    demo_env !! "sample_size_factor" = Some sf /\
    isolation_forest_params tf sf rows = OK (n, sz) /\
    demo_inventory_data_to_pandas (VDict d) demo_FEATURE_LIST = OK df0 /\
    demo_preprocess df0 = OK (df, mapping) /\
    outcome (run_strategy "scikitlearn" demo_IsolationForest demo_predict
               demo_RADIsolationForest demo_fit_predict_contrast demo_env df n sz)
    = OK (isolation_forest, results) /\
    demo_env !! "ai_service" = Some ai_service /\
    In (Request 0 "post" "http://next"
          (build_output demo_FEATURE_LIST "b0a1" ai_service account results [])
          (VDict {[ "x-rh-identity" := VNone ]}))
       (trace w).
Proof.
  apply (request_only_after_detection "Thread-1" "b0a1" demo_FEATURE_LIST
           "scikitlearn" demo_inventory_data_to_pandas demo_preprocess
           demo_IsolationForest demo_predict
           demo_RADIsolationForest demo_fit_predict_contrast
           demo_send_ok demo_job "http://next" demo_env VNone).
  vm_compute. lia.
Defined.

Lemma missing_factor_escapes_witness :
  exists key,
    (key = "num_trees_factor" \/ key = "sample_size_factor") /\
    demo_env_no_factors !! key = None /\
    demo_worker "scikitlearn" demo_send_ok demo_job "http://next"
      demo_env_no_factors VNone =
    Run [TimerStart "request_time";
         Log DEBUG "%s: Worker started" [VStr "Thread-1"];
         Observe "data_size" (VInt 100);
         Log INFO "%s: Job account ID %s (batch ID: %s): Started..."
           [VStr "Thread-1"; VStr "A1"; VStr "b0a1"];
         TimerStop "request_time"]
        (Raise (KeyError key)).
Proof.
  apply (missing_factor_escapes "Thread-1" "b0a1" demo_FEATURE_LIST
           "scikitlearn" demo_inventory_data_to_pandas demo_preprocess
           demo_IsolationForest demo_predict
           demo_RADIsolationForest demo_fit_predict_contrast
           demo_send_ok demo_job "http://next" demo_env_no_factors VNone
           (VStr "A1")
           (list_to_map [("total", VInt 100); ("hosts", VList [])])
           (VInt 100)).
  - vm_compute; reflexivity.
  - vm_compute; reflexivity.
  - vm_compute; reflexivity.
  - vm_compute; reflexivity.
  - left. vm_compute; reflexivity.
Defined.

Lemma non_dict_data_escapes_witness :
  demo_worker "scikitlearn" demo_send_ok demo_job_list_data "http://next"
    demo_env VNone =
  Run [TimerStart "request_time";
       Log DEBUG "%s: Worker started" [VStr "Thread-1"];
       TimerStop "request_time"]
      (Raise TypeError).
Proof.
  apply (non_dict_data_escapes "Thread-1" "b0a1" demo_FEATURE_LIST
           "scikitlearn" demo_inventory_data_to_pandas demo_preprocess
           demo_IsolationForest demo_predict
           demo_RADIsolationForest demo_fit_predict_contrast
           demo_send_ok demo_job_list_data "http://next" demo_env VNone
           (VStr "A1") (VList [VInt 100])).
  - vm_compute; reflexivity.
  - vm_compute; reflexivity.
  - intros d H. discriminate H.
Defined.

Lemma missing_service_name_escapes_witness :
  let w := demo_worker "scikitlearn" demo_send_ok demo_job "http://next"
             demo_env_no_service VNone in
  w = Run ([TimerStart "request_time";
            Log DEBUG "%s: Worker started" [VStr "Thread-1"];
            Observe "data_size" (VInt 100);
            Log INFO "%s: Job account ID %s (batch ID: %s): Started..."
              [VStr "Thread-1"; VStr "A1"; VStr "b0a1"];
            Call "isolation_forest_params" [VFloat 0.3; VFloat 0.3; VInt 100];
            TimerStart "preparation_time";
            Call "rad.inventory_data_to_pandas"
              (VDict (list_to_map [("total", VInt 100); ("hosts", VList [])])
               :: demo_FEATURE_LIST);
            Call "rad.preprocess" [];
            TimerStop "preparation_time"]
           ++ trace (run_strategy "scikitlearn" demo_IsolationForest demo_predict
                       demo_RADIsolationForest demo_fit_predict_contrast
                       demo_env_no_service tt 30 30)
           ++ [Log INFO "Analysis have %s rows in scores"
                 [VInt (Z.of_nat (length [VInt 1; VInt (-1)]))];
               TimerStop "request_time"])
          (Raise (KeyError "ai_service")) /\
  requests_made (trace w) = 0%nat /\
  incremented "jobs_published" (trace w) = 0%nat.
Proof.
  apply (missing_service_name_escapes "Thread-1" "b0a1" demo_FEATURE_LIST
           "scikitlearn" demo_inventory_data_to_pandas demo_preprocess
           demo_IsolationForest demo_predict
           demo_RADIsolationForest demo_fit_predict_contrast
           demo_send_ok demo_job "http://next" demo_env_no_service VNone
           (VStr "A1")
           (list_to_map [("total", VInt 100); ("hosts", VList [])])
           (VInt 100) (VFloat 0.3) (VFloat 0.3) 30 30 tt tt (VDict ∅) tt
           [VInt 1; VInt (-1)]);
    vm_compute; reflexivity.
Defined.

Lemma escape_after_request_is_foreign_witness :
  exists attempt,
    (attempt < MAX_RETRIES)%nat /\
    demo_send_timeout attempt = Fails (OtherError "ReadTimeout") /\
    is_request_failure (OtherError "ReadTimeout") = false.
Proof.
  apply (escape_after_request_is_foreign "Thread-1" "b0a1" demo_FEATURE_LIST
           "scikitlearn" demo_inventory_data_to_pandas demo_preprocess
           demo_IsolationForest demo_predict
           demo_RADIsolationForest demo_fit_predict_contrast
           demo_send_timeout demo_job "http://next" demo_env VNone
           (OtherError "ReadTimeout")).
  - vm_compute; reflexivity.
  - vm_compute. lia.
Defined.
